(** * HFLabsTestTask: tables of a Confluence page written to a Google document

    A shallow embedding of [main.go].  The program is a pipeline of calls
    into external collaborators (HTTP, goquery, html2text, the local file
    system, OAuth2 and the Google Docs API).  Every collaborator is a field
    of an environment record [Env]; the program threads a trace of the
    effects it has performed and may stop early through [log.Fatalf] or a
    run-time panic. *)

From Stdlib Require Import ZArith List String Ascii Bool Lia.
Import ListNotations.

Local Open Scope string_scope.
Local Open Scope list_scope.
Local Open Scope Z_scope.

(** ** Machine integers: Go's [int64] with wrap-around *)

Module Int64.

Definition min_int : Z := - 2 ^ 63.
Definition max_int : Z := 2 ^ 63 - 1.

Definition in_range (z : Z) : Prop := min_int <= z <= max_int.

Definition wrap (z : Z) : Z := (z + 2 ^ 63) mod 2 ^ 64 - 2 ^ 63.

Definition add (x y : Z) : Z := wrap (x + y).
Definition sub (x y : Z) : Z := wrap (x - y).

End Int64.

(** ** [unicode/utf8]: counting runes in a Go string

    A Go string is a sequence of bytes.  [RuneCountInString] walks it from
    the left; a well-formed UTF-8 sequence counts as one rune, and any byte
    that does not start one counts as one rune of width 1. *)

Module utf8.

Definition byte_val (c : ascii) : Z := Z.of_N (N_of_ascii c).

(** Continuation byte range [locb, hicb]. *)
Definition locb : Z := 128.
Definition hicb : Z := 191.

(** For a leading byte [c >= 0x80]: the length of the sequence and the
    range accepted for its second byte; [None] for an invalid leader. *)
Definition first (c : Z) : option (nat * Z * Z) :=
  if c <? 194 then None
  else if c <=? 223 then Some (2%nat, locb, hicb)
  else if c =? 224 then Some (3%nat, 160, hicb)
  else if c <=? 236 then Some (3%nat, locb, hicb)
  else if c =? 237 then Some (3%nat, locb, 159)
  else if c <=? 239 then Some (3%nat, locb, hicb)
  else if c =? 240 then Some (4%nat, 144, hicb)
  else if c <=? 243 then Some (4%nat, locb, hicb)
  else if c =? 244 then Some (4%nat, locb, 143)
  else None.

Definition is_cont (c : Z) : bool := (locb <=? c) && (c <=? hicb).

(** Width in bytes of the rune that starts the (non-empty) byte list. *)
Definition rune_width (s : list Z) : nat :=
  match s with
  | [] => 0%nat
  | c :: rest =>
      if c <? 128 then 1%nat
      else match first c with
           | None => 1%nat
           | Some (size, lo, hi) =>
               if (List.length s <? size)%nat then 1%nat
               else match rest with
                    | c1 :: rest1 =>
                        if (c1 <? lo) || (hi <? c1) then 1%nat
                        else if (size =? 2)%nat then 2%nat
                        else match rest1 with
                             | c2 :: rest2 =>
                                 if negb (is_cont c2) then 1%nat
                                 else if (size =? 3)%nat then 3%nat
                                 else match rest2 with
                                      | c3 :: _ =>
                                          if negb (is_cont c3) then 1%nat
                                          else 4%nat
                                      | [] => 1%nat
                                      end
                             | [] => 1%nat
                             end
                    | [] => 1%nat
                    end
           end
  end.

(** [count_from skip s]: runes in [s] once [skip] leading bytes, which
    belong to a rune already counted, are passed over. *)
Fixpoint count_from (skip : nat) (s : list Z) : Z :=
  match s with
  | [] => 0
  | _ :: rest =>
      match skip with
      | S k => count_from k rest
      | O => 1 + count_from (Nat.pred (rune_width s)) rest
      end
  end.

Definition RuneCountInString (s : string) : Z :=
  count_from 0 (List.map byte_val (list_ascii_of_string s)).

End utf8.

(** ** Data model of the program *)

Definition CONFLUENCE_URL : string :=
  "https://confluence.hflabs.ru/pages/viewpage.action?pageId=1181220999".
Definition CREDENTIALS_PATH : string := "credentials.json".
Definition DOCUMENT_ID_PATH : string := "document_id.txt".
Definition TOKEN_PATH : string := "token.json".

Record row : Type := { entries : list string }.

Record table : Type := { contents : list row }.

(** ** The parts of the Google Docs data model the program reads.
    A Go pointer is an [option]; a slice of pointers is a list of options. *)

Record TableCell : Type := { tc_StartIndex : Z }.

Record TableRow : Type := { TableCells : list (option TableCell) }.

Record Table : Type := { TableRows : list (option TableRow) }.

Record StructuralElement : Type :=
  { se_StartIndex : Z;
    se_EndIndex : Z;
    se_Table : option Table }.

Record Body : Type := { Content : list (option StructuralElement) }.

Record Document : Type :=
  { DocumentId : string;
    doc_Body : option Body }.

Record BatchUpdateResponse : Type := { resp_DocumentId : string }.

(** The three kinds of request the program puts in a batch update. *)
Inductive Request : Type :=
| DeleteContentRange (StartIndex EndIndex : Z)
| InsertTable (Rows Columns : Z)          (* at EndOfSegmentLocation *)
| InsertText (Text : string) (Index : Z).

(** ** Errors, diagnostics and output lines *)

Inductive error : Type :=
| ExternalError (msg : string)
    (* an error value produced by a library *)
| NonOkayStatus (StatusCode : Z) (Status : string)
    (* "Non-okay status code: %v %v" *)
| UnableToReadSecret (e : error)
    (* "Unable to read client secret file: %v" *)
| UnableToParseSecret (e : error)
    (* "Unable to parse client secret file to config: %v" *)
| UnableToRetrieveDocsClient (e : error)
    (* "Unable to retrieve Docs client: %v" *)
| EmptyTable
    (* "Empty table" *)
| InvalidTable (colCnt len rowNo : Z)
    (* "Invalid table: %v cells in first row, %v cell in row #%v" *)
| LastTableNotFound.
    (* "Failed to find last table in doc.Body.Content" *)

Inductive result (A : Type) : Type :=
| Ok (a : A)
| Err (e : error).
Arguments Ok {A} a.
Arguments Err {A} e.

(** Messages of [log.Fatalf]. *)
Inductive Diag : Type :=
| FailedToGetTables (e : error)
| FailedToGetService (e : error)
| FailedToGetDocument (e : error)
| UnableToReadAuthorizationCode (e : error)
| UnableToRetrieveTokenFromWeb (e : error)
| UnableToCacheOAuthToken (e : error).

(** Lines written through [log]. *)
Inductive LogLine : Type :=
| LogTableHTML (html : string)
| LogTablesCount (n : Z)
| LogDocumentId (id : string)
| LogIndices (startIndex endIndex : Z)
| LogBatchUpdateResponse (resp : option BatchUpdateResponse)
| LogFatal (d : Diag).

(** Lines written to standard output through [fmt.Printf]. *)
Inductive PrintLine : Type :=
| PrintError (e : error)
| PrintAuthPrompt (authURL : string)
| PrintSavingCredential (path : string).

(** Every effect of the program, in the order it happens. *)
Inductive Event : Type :=
| EvHttpGet (url : string)
| EvCloseBody
| EvParseHtml
| EvReadFile (path : string)
| EvWriteFile (path data : string)
| EvOpen (path : string)
| EvOpenFile (path : string)
| EvCloseFile (path : string)
| EvJsonDecode (path : string)
| EvJsonEncode (path : string)
| EvScan
| EvExchange (code : string)
| EvDocsGet (docId : string)
| EvDocsCreate (title : string)
| EvBatchUpdate (docId : string) (requests : list Request)
| EvLog (m : LogLine)
| EvPrint (m : PrintLine).

Definition Trace : Type := list Event.

Inductive PanicValue : Type :=
| NilPointerDereference
| IndexOutOfRange (index len : Z).

(** ** The monad of the program: a trace of effects, and three ways to stop *)

Inductive Outcome (A : Type) : Type :=
| Ret (a : A)                 (* the function returned *)
| Exit (d : Diag)             (* log.Fatalf: the process exited *)
| Panicked (p : PanicValue).  (* a run-time panic *)
Arguments Ret {A} a.
Arguments Exit {A} d.
Arguments Panicked {A} p.

Definition M (A : Type) : Type := Trace -> Outcome A * Trace.

Definition ret {A} (a : A) : M A := fun tr => (Ret a, tr).

Definition bind {A B} (m : M A) (k : A -> M B) : M B :=
  fun tr =>
    match m tr with
    | (Ret a, tr') => k a tr'
    | (Exit d, tr') => (Exit d, tr')
    | (Panicked p, tr') => (Panicked p, tr')
    end.

Declare Scope go_scope.
Delimit Scope go_scope with go.
Notation "x <- m ;; k" := (bind m (fun x => k))
  (at level 100, m at next level, right associativity) : go_scope.
Notation "m ;;; k" := (bind m (fun _ => k))
  (at level 100, right associativity) : go_scope.
Local Open Scope go_scope.

(** An effect whose answer the environment computes from the history. *)
Definition call {A} (ev : Event) (answer : Trace -> A) : M A :=
  fun tr => (Ret (answer tr), tr ++ [ev]).

Definition emit (ev : Event) : M unit := call ev (fun _ => tt).

Definition log_Println (m : LogLine) : M unit := emit (EvLog m).

Definition fmt_Printf (m : PrintLine) : M unit := emit (EvPrint m).

Definition log_Fatalf {A} (d : Diag) : M A :=
  fun tr => (Exit d, tr ++ [EvLog (LogFatal d)]).

Definition panic {A} (p : PanicValue) : M A := fun tr => (Panicked p, tr).

(** [defer d] then [m]: [d] runs when [m] returns or panics, not when the
    process exits. *)
Definition defer {A} (d : M unit) (m : M A) : M A :=
  fun tr =>
    match m tr with
    | (Ret a, tr') => (Ret a, snd (d tr'))
    | (Exit x, tr') => (Exit x, tr')
    | (Panicked p, tr') => (Panicked p, snd (d tr'))
    end.

(** [*p] *)
Definition deref {A} (p : option A) : M A :=
  match p with
  | Some a => ret a
  | None => panic NilPointerDereference
  end.

(** [s[i]] *)
Definition index {A} (s : list A) (i : Z) : M A :=
  if (i <? 0) || (Z.of_nat (List.length s) <=? i)
  then panic (IndexOutOfRange i (Z.of_nat (List.length s)))
  else match nth_error s (Z.to_nat i) with
       | Some a => ret a
       | None => panic (IndexOutOfRange i (Z.of_nat (List.length s)))
       end.

(** [for _, x := range xs { f(x) }], collecting what [f] produces. *)
Fixpoint forEach {A B} (xs : list A) (f : A -> M B) : M (list B) :=
  match xs with
  | [] => ret []
  | x :: rest =>
      b <- f x ;;
      bs <- forEach rest f ;;
      ret (b :: bs)
  end.

Definition is_nil {A} (p : option A) : bool :=
  match p with Some _ => false | None => true end.

Definition len {A} (s : list A) : Z := Z.of_nat (List.length s).

(** ** The environment: every external collaborator of the program

    [Config], [Token], [Client], [Service] and [Selection] are values the
    program only passes along.  A function that talks to the outside world
    takes the trace of what happened before the call. *)

Record Response : Type :=
  { StatusCode : Z;
    Status : string;
    Response_Body : string }.

Definition http_StatusOK : Z := 200.

Section Program.

Context {Config Token Client Service Selection : Type}.

Record Env : Type :=
  { (* net/http *)
    http_Get : Trace -> string -> result Response;
    (* github.com/PuerkitoBio/goquery *)
    goquery_NewDocumentFromReader : Trace -> string -> result Selection;
    goquery_Find : Selection -> string -> list Selection;
    goquery_Html : Selection -> string * option error;
    (* jaytaylor.com/html2text, with PrettyTables *)
    html2text_FromString : string -> result string;
    (* os, encoding/json, fmt *)
    os_ReadFile : Trace -> string -> result string;
    os_WriteFile : Trace -> string -> string -> option error;
    os_Open : Trace -> string -> option error;
    os_OpenFile : Trace -> string -> option error;
    json_Decode : Trace -> string -> result Token;
    fmt_Scan : Trace -> result string;
    (* golang.org/x/oauth2 *)
    google_ConfigFromJSON : string -> string -> result Config;
    oauth2_AuthCodeURL : Config -> string;
    oauth2_Exchange : Trace -> Config -> string -> result Token;
    oauth2_Client : Config -> Token -> Client;
    (* google.golang.org/api/docs/v1 *)
    docs_NewService : Client -> result Service;
    docs_Get : Service -> Trace -> string -> result Document;
    docs_Create : Service -> Trace -> string -> result Document;
    docs_BatchUpdate :
      Service -> Trace -> string -> list Request -> result BatchUpdateResponse }.

Variable E : Env.

(** *** Table Scraper *)

Definition stripHtmlTags (s : string) : string :=
  match html2text_FromString E s with
  | Ok text => text
  | Err _ => s
  end.

(** What the two inner [Each] callbacks of lines 63-71 collect for one
    table element: every [tr], and in it every [td] or [th]. *)
Definition scrapeRow (rowSelection : Selection) : row :=
  {| entries :=
       List.map
         (fun cellSelection =>
            let html := fst (goquery_Html E cellSelection) in
            stripHtmlTags html)
         (goquery_Find E rowSelection "td, th") |}.

Definition scrapeTable (tableSelection : Selection) : table :=
  {| contents := List.map scrapeRow (goquery_Find E tableSelection "tr") |}.

Definition getTables : M (result (list table)) :=
  r <- call (EvHttpGet CONFLUENCE_URL) (fun tr => http_Get E tr CONFLUENCE_URL) ;;
  match r with
  | Err err => ret (Err err)
  | Ok response =>
      defer (emit EvCloseBody)
        (if negb (StatusCode response =? http_StatusOK)
         then ret (Err (NonOkayStatus (StatusCode response) (Status response)))
         else
           r <- call EvParseHtml
                  (fun tr => goquery_NewDocumentFromReader E tr (Response_Body response)) ;;
           match r with
           | Err err => ret (Err err)
           | Ok document =>
               tables <-
                 forEach (goquery_Find E document ".confluenceTable")
                   (fun tableSelection =>
                      let tableHtml := fst (goquery_Html E tableSelection) in
                      log_Println (LogTableHTML tableHtml) ;;;
                      ret (scrapeTable tableSelection)) ;;
               ret (Ok tables)
           end)
  end.

(** *** Credential Manager *)

Definition tokenFromFile (file : string) : M (result Token) :=
  err <- call (EvOpen file) (fun tr => os_Open E tr file) ;;
  defer (emit (EvCloseFile file))
    (match err with
     | Some e => ret (Err e)
     | None => call (EvJsonDecode file) (fun tr => json_Decode E tr file)
     end).

Definition getTokenFromWeb (config : Config) : M Token :=
  let authURL := oauth2_AuthCodeURL E config in
  fmt_Printf (PrintAuthPrompt authURL) ;;;
  r <- call EvScan (fun tr => fmt_Scan E tr) ;;
  match r with
  | Err err => log_Fatalf (UnableToReadAuthorizationCode err)
  | Ok authCode =>
      r <- call (EvExchange authCode) (fun tr => oauth2_Exchange E tr config authCode) ;;
      match r with
      | Err err => log_Fatalf (UnableToRetrieveTokenFromWeb err)
      | Ok tok => ret tok
      end
  end.

Definition saveToken (path : string) (token : Token) : M unit :=
  fmt_Printf (PrintSavingCredential path) ;;;
  err <- call (EvOpenFile path) (fun tr => os_OpenFile E tr path) ;;
  defer (emit (EvCloseFile path))
    (match err with
     | Some e => log_Fatalf (UnableToCacheOAuthToken e)
     | None => emit (EvJsonEncode path)
     end).

Definition getClient (config : Config) : M Client :=
  r <- tokenFromFile TOKEN_PATH ;;
  match r with
  | Ok tok => ret (oauth2_Client E config tok)
  | Err _ =>
      tok <- getTokenFromWeb config ;;
      saveToken TOKEN_PATH tok ;;;
      ret (oauth2_Client E config tok)
  end.

Definition getService : M (result Service) :=
  r <- call (EvReadFile CREDENTIALS_PATH) (fun tr => os_ReadFile E tr CREDENTIALS_PATH) ;;
  match r with
  | Err err => ret (Err (UnableToReadSecret err))
  | Ok b =>
      match google_ConfigFromJSON E b "https://www.googleapis.com/auth/documents" with
      | Err err => ret (Err (UnableToParseSecret err))
      | Ok config =>
          client <- getClient config ;;
          match docs_NewService E client with
          | Err err => ret (Err (UnableToRetrieveDocsClient err))
          | Ok srv => ret (Ok srv)
          end
      end
  end.

(** *** Document Locator *)

Definition getDocument (srv : Service) : M (result Document) :=
  r <- call (EvReadFile DOCUMENT_ID_PATH) (fun tr => os_ReadFile E tr DOCUMENT_ID_PATH) ;;
  match r with
  | Ok documentIdBytes =>
      call (EvDocsGet documentIdBytes) (fun tr => docs_Get E srv tr documentIdBytes)
  | Err _ =>
      let title := "HFLabsTestTaskTableDocument" in
      r <- call (EvDocsCreate title) (fun tr => docs_Create E srv tr title) ;;
      match r with
      | Err err => ret (Err err)
      | Ok doc =>
          _ <- call (EvWriteFile DOCUMENT_ID_PATH (DocumentId doc))
                 (fun tr => os_WriteFile E tr DOCUMENT_ID_PATH (DocumentId doc)) ;;
          ret (Ok doc)
      end
  end.

(** *** Document Writer *)

Definition response_of (r : result BatchUpdateResponse) : option BatchUpdateResponse :=
  match r with Ok resp => Some resp | Err _ => None end.

Definition error_of {A} (r : result A) : option error :=
  match r with Ok _ => None | Err e => Some e end.

Definition batchUpdate (srv : Service) (docId : string) (requests : list Request)
  : M (result BatchUpdateResponse) :=
  call (EvBatchUpdate docId requests)
    (fun tr => docs_BatchUpdate E srv tr docId requests).

Definition clearDocument (docId : string) (srv : Service) : M (option error) :=
  r <- call (EvDocsGet docId) (fun tr => docs_Get E srv tr docId) ;;
  match r with
  | Err err => ret (Some err)
  | Ok doc =>
      body <- deref (doc_Body doc) ;;
      let bodyContentLength := len (Content body) in
      if bodyContentLength =? 0 then ret None
      else
        first <- index (Content body) 0 ;;
        first <- deref first ;;
        let startIndex := se_StartIndex first in
        last <- index (Content body) (bodyContentLength - 1) ;;
        last <- deref last ;;
        let endIndex := se_EndIndex last in
        log_Println (LogIndices startIndex endIndex) ;;;
        r <- batchUpdate srv docId
               [DeleteContentRange (Int64.add startIndex 1) (Int64.sub endIndex 1)] ;;
        log_Println (LogBatchUpdateResponse (response_of r)) ;;;
        ret (error_of r)
  end.

(** The validation loop, lines 209-213: [i] is the index of the head of
    [rows] in [tbl.contents]. *)
Fixpoint checkRows (colCnt : Z) (i : Z) (rows : list row) : option error :=
  match rows with
  | [] => None
  | r :: rest =>
      if negb (len (entries r) =? colCnt)
      then Some (InvalidTable colCnt (len (entries r)) (i + 1))
      else checkRows colCnt (i + 1) rest
  end.

(** The scan for the last table, lines 238-243. *)
Fixpoint scanTables (content : list (option StructuralElement)) (i tableIdx : Z) : M Z :=
  match content with
  | [] => ret tableIdx
  | p :: rest =>
      elem <- deref p ;;
      scanTables rest (i + 1) (if is_nil (se_Table elem) then tableIdx else i)
  end.

(** The loops that build the insert-text requests, lines 251-268.  The
    state is [(requests, totalInserted)]. *)
Fixpoint cellsLoop (tbl : table) (rowIdx : Z) (cells : list (option TableCell))
    (cellIdx : Z) (st : list Request * Z) : M (list Request * Z) :=
  match cells with
  | [] => ret st
  | None :: rest => cellsLoop tbl rowIdx rest (cellIdx + 1) st
  | Some cell :: rest =>
      r <- index (contents tbl) rowIdx ;;
      text <- index (entries r) cellIdx ;;
      let '(requests, totalInserted) := st in
      cellsLoop tbl rowIdx rest (cellIdx + 1)
        (requests ++
           [InsertText text (Int64.add (Int64.add (tc_StartIndex cell) 1) totalInserted)],
         Int64.add totalInserted (utf8.RuneCountInString text))
  end.

Fixpoint rowsLoop (tbl : table) (rows : list (option TableRow)) (rowIdx : Z)
    (st : list Request * Z) : M (list Request * Z) :=
  match rows with
  | [] => ret st
  | None :: rest => rowsLoop tbl rest (rowIdx + 1) st
  | Some r :: rest =>
      st' <- cellsLoop tbl rowIdx (TableCells r) 0 st ;;
      rowsLoop tbl rest (rowIdx + 1) st'
  end.

Definition insertTableToDocument (docId : string) (srv : Service) (tbl : table)
  : M (option error) :=
  let rowCnt := len (contents tbl) in
  if rowCnt =? 0 then ret (Some EmptyTable)
  else
    row0 <- index (contents tbl) 0 ;;
    let colCnt := len (entries row0) in
    match checkRows colCnt 0 (contents tbl) with
    | Some err => ret (Some err)
    | None =>
        r <- batchUpdate srv docId [InsertTable rowCnt colCnt] ;;
        log_Println (LogBatchUpdateResponse (response_of r)) ;;;
        match r with
        | Err err => ret (Some err)
        | Ok _ =>
            r <- call (EvDocsGet docId) (fun tr => docs_Get E srv tr docId) ;;
            match r with
            | Err err => ret (Some err)
            | Ok doc =>
                body <- deref (doc_Body doc) ;;
                tableIdx <- scanTables (Content body) 0 (-1) ;;
                if tableIdx =? -1 then ret (Some LastTableNotFound)
                else
                  elem <- index (Content body) tableIdx ;;
                  elem <- deref elem ;;
                  tb <- deref (se_Table elem) ;;
                  st <- rowsLoop tbl (TableRows tb) 0 ([], 0) ;;
                  r <- batchUpdate srv docId (fst st) ;;
                  log_Println (LogBatchUpdateResponse (response_of r)) ;;;
                  ret (error_of r)
            end
        end
    end.

(** *** Driver *)

(** The loop of lines 305-310. *)
Fixpoint insertTables (docId : string) (srv : Service) (tables : list table) : M unit :=
  match tables with
  | [] => ret tt
  | tbl :: rest =>
      err <- insertTableToDocument docId srv tbl ;;
      match err with
      | Some e => fmt_Printf (PrintError e)
      | None => ret tt
      end ;;;
      insertTables docId srv rest
  end.

Definition main : M unit :=
  r <- getTables ;;
  match r with
  | Err err => log_Fatalf (FailedToGetTables err)
  | Ok tables =>
      log_Println (LogTablesCount (len tables)) ;;;
      r <- getService ;;
      match r with
      | Err err => log_Fatalf (FailedToGetService err)
      | Ok srv =>
          r <- getDocument srv ;;
          match r with
          | Err err => log_Fatalf (FailedToGetDocument err)
          | Ok doc =>
              log_Println (LogDocumentId (DocumentId doc)) ;;;
              err <- clearDocument (DocumentId doc) srv ;;
              match err with
              | Some e => fmt_Printf (PrintError e)
              | None => ret tt
              end ;;;
              insertTables (DocumentId doc) srv tables
          end
      end
  end.

End Program.

Arguments Env : clear implicits.

(** ** Vocabulary of the properties *)

(** A table the validation of [insertTableToDocument] accepts: at least
    one row, and every row as long as the first. *)
Definition rectangular (tbl : table) : Prop :=
  match contents tbl with
  | [] => False
  | row0 :: _ =>
      Forall (fun r => List.length (entries r) = List.length (entries row0)) (contents tbl)
  end.

(** A table with a row whose cell count differs from the first row's. *)
Definition ragged (tbl : table) : Prop :=
  exists row0 r,
    hd_error (contents tbl) = Some row0 /\
    In r (contents tbl) /\
    List.length (entries r) <> List.length (entries row0).

Definition validation_error (e : error) : Prop :=
  e = EmptyTable \/ exists colCnt n rowNo, e = InvalidTable colCnt n rowNo.

(** The elements of a slice with their indices, counted from [i]. *)
Fixpoint indexedFrom {A} (i : Z) (l : list A) : list (Z * A) :=
  match l with
  | [] => []
  | x :: rest => (i, x) :: indexedFrom (i + 1) rest
  end.

(** The non-nil cells of a slice of cells, left to right, with the row
    index and their cell indices, counted from [cellIdx]. *)
Definition cellsFrom (rowIdx cellIdx : Z) (cells : list (option TableCell))
  : list (Z * Z * TableCell) :=
  flat_map
    (fun ic => match snd ic with
               | None => []
               | Some cell => [(rowIdx, fst ic, cell)]
               end)
    (indexedFrom cellIdx cells).

Definition rowCells (rowIdx : Z) (r : option TableRow) : list (Z * Z * TableCell) :=
  match r with
  | None => []
  | Some r => cellsFrom rowIdx 0 (TableCells r)
  end.

(** The non-nil cells of a slice of rows in row-major order, the rows
    counted from [rowIdx]. *)
Definition rowsFrom (rowIdx : Z) (rows : list (option TableRow))
  : list (Z * Z * TableCell) :=
  flat_map (fun ir => rowCells (fst ir) (snd ir)) (indexedFrom rowIdx rows).

(** The non-nil cells of a document table in row-major order. *)
Definition docCells (tb : Table) : list (Z * Z * TableCell) :=
  rowsFrom 0 (TableRows tb).

(** [tbl.contents[rowIdx].entries[cellIdx]], when both indices are in range. *)
Definition sourceText (tbl : table) (rowIdx cellIdx : Z) : option string :=
  if (rowIdx <? 0) || (cellIdx <? 0) then None
  else match nth_error (contents tbl) (Z.to_nat rowIdx) with
       | Some r => nth_error (entries r) (Z.to_nat cellIdx)
       | None => None
       end.

(** The text and the start offset of every cell to fill, in row-major
    order; [None] when some document cell has no source text. *)
Fixpoint placements (tbl : table) (cells : list (Z * Z * TableCell))
  : option (list (string * Z)) :=
  match cells with
  | [] => Some []
  | (rowIdx, cellIdx, cell) :: rest =>
      match sourceText tbl rowIdx cellIdx, placements tbl rest with
      | Some text, Some pl => Some ((text, tc_StartIndex cell) :: pl)
      | _, _ => None
      end
  end.

(** Total character count of a list of texts. *)
Definition charCount (texts : list string) : Z :=
  fold_right (fun text n => utf8.RuneCountInString text + n) 0 texts.

(** A content element that is present and is not a table. *)
Definition notATable (p : option StructuralElement) : Prop :=
  exists elem, p = Some elem /\ se_Table elem = None.

(** A non-nil pointer. *)
Definition nonNil {A} (p : option A) : Prop := p <> None.

(** The insert-text requests as the specification words them: each text
    goes to its cell's start offset plus one, plus the character count of
    the texts [earlier] inserted in the same table. *)
Fixpoint textRequestsAfter (earlier : list string) (pl : list (string * Z))
  : list Request :=
  match pl with
  | [] => []
  | (text, start) :: rest =>
      InsertText text (Int64.wrap (start + 1 + charCount earlier))
        :: textRequestsAfter (earlier ++ [text]) rest
  end.

(** A computation that never ends the process through [log.Fatalf]. *)
Definition neverExits {A} (m : M A) : Prop :=
  forall tr d, fst (m tr) <> Exit d.

(** What the driver prints for the error value a step returned. *)
Definition printed (err : option error) : list Event :=
  match err with
  | Some e => [EvPrint (PrintError e)]
  | None => []
  end.

(** The driver's insert phase as a state machine over traces: from
    [Insert(i)] the run moves to [Insert(i+1)] whether the insertion
    succeeded or returned an error (which is printed). *)
Inductive InsertSteps {Config Token Client Service Selection : Type}
    (E : Env Config Token Client Service Selection) (docId : string) (srv : Service)
  : list table -> Trace -> Trace -> Prop :=
| InsertSteps_done tr :
    InsertSteps E docId srv [] tr tr
| InsertSteps_ok tbl rest tr tr1 tr2 :
    insertTableToDocument E docId srv tbl tr = (Ret None, tr1) ->
    InsertSteps E docId srv rest tr1 tr2 ->
    InsertSteps E docId srv (tbl :: rest) tr tr2
| InsertSteps_failed tbl rest tr tr1 tr2 e :
    insertTableToDocument E docId srv tbl tr = (Ret (Some e), tr1) ->
    InsertSteps E docId srv rest (tr1 ++ [EvPrint (PrintError e)]) tr2 ->
    InsertSteps E docId srv (tbl :: rest) tr tr2.

(** ** A small simulated world, used to run the program on concrete inputs *)

Module Demo.

(** A parsed page reduced to what the three selectors can reach. *)
Inductive Node : Type :=
| PageNode (tables : list (list (list string)))
| TableNode (rows : list (list string))
| RowNode (cells : list string)
| CellNode (html : string).

Definition Find (n : Node) (selector : string) : list Node :=
  match n with
  | PageNode tables =>
      if String.eqb selector ".confluenceTable" then List.map TableNode tables else []
  | TableNode rows =>
      if String.eqb selector "tr" then List.map RowNode rows else []
  | RowNode cells =>
      if String.eqb selector "td, th" then List.map CellNode cells else []
  | CellNode _ => []
  end.

Definition Html (n : Node) : string * option error :=
  match n with
  | CellNode html => (html, None)
  | _ => ("", None)
  end.

(** Offsets of an empty [rows] x [cols] table that starts at [s]: one
    position for the table, one per row, two per cell. *)
Definition cellStart (s : Z) (cols : nat) (i j : nat) : Z :=
  s + 1 + Z.of_nat i * (1 + 2 * Z.of_nat cols) + 1 + 2 * Z.of_nat j.

Definition emptyTable (s : Z) (rows cols : nat) : Table :=
  {| TableRows :=
       List.map
         (fun i =>
            Some {| TableCells :=
                      List.map (fun j => Some {| tc_StartIndex := cellStart s cols i j |})
                        (seq 0 cols) |})
         (seq 0 rows) |}.

Definition sectionBreak : StructuralElement :=
  {| se_StartIndex := 0; se_EndIndex := 1; se_Table := None |}.

Definition paragraph (s e : Z) : StructuralElement :=
  {| se_StartIndex := s; se_EndIndex := e; se_Table := None |}.

Definition tableSize (rows cols : nat) : Z :=
  2 + Z.of_nat rows * (1 + 2 * Z.of_nat cols).

(** The size of the table asked for by the last insert-table request. *)
Fixpoint lastInsertTable (tr : Trace) (found : option (Z * Z)) : option (Z * Z) :=
  match tr with
  | [] => found
  | EvBatchUpdate _ [InsertTable rows cols] :: rest => lastInsertTable rest (Some (rows, cols))
  | _ :: rest => lastInsertTable rest found
  end.

(** A document that holds the table of the last insert-table request,
    between two paragraphs; an empty document before any such request. *)
Definition documentAfter (docId : string) (tr : Trace) : Document :=
  {| DocumentId := docId;
     doc_Body :=
       Some {| Content :=
                 match lastInsertTable tr None with
                 | None => [Some sectionBreak; Some (paragraph 1 2)]
                 | Some (rows, cols) =>
                     let n := tableSize (Z.to_nat rows) (Z.to_nat cols) in
                     [Some sectionBreak;
                      Some (paragraph 1 2);
                      Some {| se_StartIndex := 2;
                              se_EndIndex := 2 + n;
                              se_Table := Some (emptyTable 2 (Z.to_nat rows) (Z.to_nat cols)) |};
                      Some (paragraph (2 + n) (3 + n))]
                 end |} |}.

Record Scenario : Type :=
  { status : Z;
    statusText : string;
    page : list (list (list string));
    convert : string -> result string;
    readFile : string -> result string;
    writeFile : option error;
    getDoc : string -> Trace -> result Document;
    batchUpdateDoc : list Request -> result BatchUpdateResponse }.

Definition env (sc : Scenario) : Env unit unit unit unit Node :=
  {| http_Get := fun _ _ =>
       Ok {| StatusCode := status sc; Status := statusText sc; Response_Body := "<html>" |};
     goquery_NewDocumentFromReader := fun _ _ => Ok (PageNode (page sc));
     goquery_Find := Find;
     goquery_Html := Html;
     html2text_FromString := convert sc;
     os_ReadFile := fun _ path => readFile sc path;
     os_WriteFile := fun _ _ _ => writeFile sc;
     os_Open := fun _ _ => None;
     os_OpenFile := fun _ _ => None;
     json_Decode := fun _ _ => Ok tt;
     fmt_Scan := fun _ => Ok "code";
     google_ConfigFromJSON := fun _ _ => Ok tt;
     oauth2_AuthCodeURL := fun _ => "https://accounts.example/auth";
     oauth2_Exchange := fun _ _ _ => Ok tt;
     oauth2_Client := fun _ _ => tt;
     docs_NewService := fun _ => Ok tt;
     docs_Get := fun _ tr docId => getDoc sc docId tr;
     docs_Create := fun _ tr _ => Ok (documentAfter "new-doc" tr);
     docs_BatchUpdate := fun _ _ _ requests => batchUpdateDoc sc requests |}.

Definition noFiles (path : string) : result string :=
  Err (ExternalError "no such file or directory").

Definition allFiles (path : string) : result string :=
  if String.eqb path DOCUMENT_ID_PATH then Ok "doc-1" else Ok "{}".

(** The service refuses an empty delete range and a table without rows or
    columns, and accepts everything else. *)
Definition acceptRequest (r : Request) : bool :=
  match r with
  | DeleteContentRange s e => s <? e
  | InsertTable rows cols => (0 <? rows) && (0 <? cols)
  | InsertText _ i => 0 <? i
  end.

Definition service (requests : list Request) : result BatchUpdateResponse :=
  if forallb acceptRequest requests
  then Ok {| resp_DocumentId := "doc-1" |}
  else Err (ExternalError "400 Bad Request").

(** A page with a 2 x 2 table, an empty table element and a ragged table. *)
Definition samplePage : list (list (list string)) :=
  [ [ ["A"; "B"]; ["C"; "D"] ];
    [];
    [ ["ab"; "c"]; ["d"] ] ].

(** Everything works. *)
Definition normal : Scenario :=
  {| status := 200;
     statusText := "200 OK";
     page := samplePage;
     convert := fun s => Ok s;
     readFile := allFiles;
     writeFile := None;
     getDoc := fun docId tr => Ok (documentAfter docId tr);
     batchUpdateDoc := service |}.

(** The page answers 201 Created. *)
Definition created201 : Scenario :=
  {| status := 201;
     statusText := "201 Created";
     page := samplePage;
     convert := fun s => Ok s;
     readFile := allFiles;
     writeFile := None;
     getDoc := fun docId tr => Ok (documentAfter docId tr);
     batchUpdateDoc := service |}.

(** No element of the page carries the table class. *)
Definition noTables : Scenario :=
  {| status := 200;
     statusText := "200 OK";
     page := [];
     convert := fun s => Ok s;
     readFile := allFiles;
     writeFile := None;
     getDoc := fun docId tr => Ok (documentAfter docId tr);
     batchUpdateDoc := service |}.

(** The HTML-to-text conversion fails on every cell. *)
Definition brokenConverter : Scenario :=
  {| status := 200;
     statusText := "200 OK";
     page := samplePage;
     convert := fun _ => Err (ExternalError "html2text: parse error");
     readFile := allFiles;
     writeFile := None;
     getDoc := fun docId tr => Ok (documentAfter docId tr);
     batchUpdateDoc := service |}.

(** First run in a read-only directory: the document id file is absent
    and cannot be written. *)
Definition readOnlyDir : Scenario :=
  {| status := 200;
     statusText := "200 OK";
     page := samplePage;
     convert := fun s => Ok s;
     readFile :=
       fun path => if String.eqb path DOCUMENT_ID_PATH then noFiles path else Ok "{}";
     writeFile := Some (ExternalError "permission denied");
     getDoc := fun docId tr => Ok (documentAfter docId tr);
     batchUpdateDoc := service |}.

(** The document body is a single content segment. *)
Definition oneSegment : Scenario :=
  {| status := 200;
     statusText := "200 OK";
     page := samplePage;
     convert := fun s => Ok s;
     readFile := allFiles;
     writeFile := None;
     getDoc := fun docId _ =>
       Ok {| DocumentId := docId;
             doc_Body := Some {| Content := [Some sectionBreak] |} |};
     batchUpdateDoc := service |}.

(** The document read back never shows a table. *)
Definition tableVanishes : Scenario :=
  {| status := 200;
     statusText := "200 OK";
     page := samplePage;
     convert := fun s => Ok s;
     readFile := allFiles;
     writeFile := None;
     getDoc := fun docId _ => Ok (documentAfter docId []);
     batchUpdateDoc := service |}.

Definition table2x2 : table :=
  {| contents := [ {| entries := ["A"; "B"] |}; {| entries := ["C"; "D"] |} ] |}.

(** The rows ["ab","c"] and ["d"] of the offset example. *)
Definition tableAbCD : table :=
  {| contents := [ {| entries := ["ab"; "c"] |}; {| entries := ["d"] |} ] |}.

(** A document table with two cells in its first row and one in its second. *)
Definition docTableAbCD (s0 s1 s2 : Z) : Table :=
  {| TableRows :=
       [ Some {| TableCells := [Some {| tc_StartIndex := s0 |};
                                Some {| tc_StartIndex := s1 |}] |};
         Some {| TableCells := [Some {| tc_StartIndex := s2 |}] |} ] |}.

(** The validated rows ["ab","c"] and ["d","e"]. *)
Definition tableAbCDE : table :=
  {| contents := [ {| entries := ["ab"; "c"] |}; {| entries := ["d"; "e"] |} ] |}.

(** A 2 x 2 document table with the given cell start offsets. *)
Definition docTable2x2 (s00 s01 s10 s11 : Z) : Table :=
  {| TableRows :=
       [ Some {| TableCells := [Some {| tc_StartIndex := s00 |};
                                Some {| tc_StartIndex := s01 |}] |};
         Some {| TableCells := [Some {| tc_StartIndex := s10 |};
                                Some {| tc_StartIndex := s11 |}] |} ] |}.

End Demo.

(** ** Further vocabulary: shapes, request texts, kinds of effect *)

(** The document table has a non-nil row for every source row, and in it a
    non-nil cell for every entry: the shape an insert-table request of
    rows x columns produces. *)
Definition sameShape (tbl : table) (tb : Table) : Prop :=
  Forall2
    (fun (r : row) (dr : option TableRow) =>
       exists drow,
         dr = Some drow /\
         Forall2 (fun (_ : string) (c : option TableCell) => nonNil c)
           (entries r) (TableCells drow))
    (contents tbl) (TableRows tb).

Definition requestText (r : Request) : option string :=
  match r with
  | InsertText text _ => Some text
  | _ => None
  end.

(** Effects on the local files, the console input, the authorization
    server or the Docs API: everything but fetching and parsing the page
    and writing log or output lines. *)
Definition beyondThePage (ev : Event) : bool :=
  match ev with
  | EvHttpGet _ | EvCloseBody | EvParseHtml | EvLog _ | EvPrint _ => false
  | _ => true
  end.

(** Requests that change the document. *)
Definition mutatesDocument (ev : Event) : bool :=
  match ev with
  | EvBatchUpdate _ _ => true
  | _ => false
  end.

(** A computation that only appends to the trace, and only effects that
    satisfy [P]. *)
Definition emitsOnly {A} (P : Event -> Prop) (m : M A) : Prop :=
  forall tr, exists added, snd (m tr) = tr ++ added /\ Forall P added.

(** The effects of the document writer on the document [docId]: reading
    it, a batch update of it, and log lines. *)
Definition writerEffect (docId : string) (ev : Event) : Prop :=
  ev = EvDocsGet docId \/
  (exists requests, ev = EvBatchUpdate docId requests) \/
  (exists line, ev = EvLog line).

(** Effects on the Docs API. *)
Definition touchesDocs (ev : Event) : bool :=
  match ev with
  | EvDocsGet _ | EvDocsCreate _ | EvBatchUpdate _ _ => true
  | _ => false
  end.


(** The diagnostics with which the credential manager ends the process. *)
Definition credentialDiag (d : Diag) : Prop :=
  exists e,
    d = UnableToReadAuthorizationCode e \/
    d = UnableToRetrieveTokenFromWeb e \/
    d = UnableToCacheOAuthToken e.

(** The errors [getService] returns. *)
Definition serviceError (e : error) : Prop :=
  exists cause,
    e = UnableToReadSecret cause \/
    e = UnableToParseSecret cause \/
    e = UnableToRetrieveDocsClient cause.


(** [emitsOnly], for the run from one trace. *)
Definition emitsAt {A} (P : Event -> Prop) (m : M A) (tr : Trace) : Prop :=
  exists added, snd (m tr) = tr ++ added /\ Forall P added.

(** The effects of the driver once the document [docId] is located: those
    of the writer on that document, and printed errors. *)
Definition driverEffect (docId : string) (ev : Event) : Prop :=
  writerEffect docId ev \/ exists e, ev = EvPrint (PrintError e).


(** ** A second simulated world, for the credential and locator paths *)

Module AuthDemo.

Record Scenario : Type :=
  { secret : result string;
    config : result unit;
    openToken : option error;
    decodeToken : result string;
    scan : result string;
    exchange : result string;
    openForSave : option error;
    newService : result unit;
    savedId : result string;
    fetched : result Document;
    created : result Document }.

(** Tokens and clients are strings, so that a run shows which token the
    client was built from. *)
Definition env (sc : Scenario) : Env unit string string unit Demo.Node :=
  {| http_Get := fun _ _ =>
       Ok {| StatusCode := 200; Status := "200 OK"; Response_Body := "<html>" |};
     goquery_NewDocumentFromReader := fun _ _ => Ok (Demo.PageNode []);
     goquery_Find := Demo.Find;
     goquery_Html := Demo.Html;
     html2text_FromString := fun s => Ok s;
     os_ReadFile := fun _ path =>
       if String.eqb path CREDENTIALS_PATH then secret sc else savedId sc;
     os_WriteFile := fun _ _ _ => None;
     os_Open := fun _ _ => openToken sc;
     os_OpenFile := fun _ _ => openForSave sc;
     json_Decode := fun _ _ => decodeToken sc;
     fmt_Scan := fun _ => scan sc;
     google_ConfigFromJSON := fun _ _ => config sc;
     oauth2_AuthCodeURL := fun _ => "https://accounts.example/auth";
     oauth2_Exchange := fun _ _ _ => exchange sc;
     oauth2_Client := fun _ tok => tok;
     docs_NewService := fun _ => newService sc;
     docs_Get := fun _ _ _ => fetched sc;
     docs_Create := fun _ _ _ => created sc;
     docs_BatchUpdate := fun _ _ _ requests => Demo.service requests |}.

Definition emptyDoc (docId : string) : Document := Demo.documentAfter docId [].

(** A later run: credentials, a cached token and a saved document id. *)
Definition laterRun : Scenario :=
  {| secret := Ok "{}";
     config := Ok tt;
     openToken := None;
     decodeToken := Ok "cached-token";
     scan := Ok "code";
     exchange := Ok "new-token";
     openForSave := None;
     newService := Ok tt;
     savedId := Ok "doc-1";
     fetched := Ok (emptyDoc "doc-1");
     created := Ok (emptyDoc "new-doc") |}.

(** A first run: no token file yet. *)
Definition firstRun : Scenario :=
  {| secret := Ok "{}";
     config := Ok tt;
     openToken := Some (ExternalError "open token.json: no such file or directory");
     decodeToken := Ok "cached-token";
     scan := Ok "code";
     exchange := Ok "new-token";
     openForSave := None;
     newService := Ok tt;
     savedId := Err (ExternalError "open document_id.txt: no such file or directory");
     fetched := Ok (emptyDoc "doc-1");
     created := Ok (emptyDoc "new-doc") |}.

(** The token file exists but does not decode. *)
Definition corruptToken : Scenario :=
  {| secret := Ok "{}";
     config := Ok tt;
     openToken := None;
     decodeToken := Err (ExternalError "unexpected end of JSON input");
     scan := Ok "code";
     exchange := Ok "new-token";
     openForSave := None;
     newService := Ok tt;
     savedId := Ok "doc-1";
     fetched := Ok (emptyDoc "doc-1");
     created := Ok (emptyDoc "new-doc") |}.

(** The authorization server refuses the code. *)
Definition refusedCode : Scenario :=
  {| secret := Ok "{}";
     config := Ok tt;
     openToken := Some (ExternalError "open token.json: no such file or directory");
     decodeToken := Ok "cached-token";
     scan := Ok "code";
     exchange := Err (ExternalError "oauth2: cannot fetch token: 400 Bad Request");
     openForSave := None;
     newService := Ok tt;
     savedId := Ok "doc-1";
     fetched := Ok (emptyDoc "doc-1");
     created := Ok (emptyDoc "new-doc") |}.

(** The new token cannot be saved. *)
Definition unwritableToken : Scenario :=
  {| secret := Ok "{}";
     config := Ok tt;
     openToken := Some (ExternalError "open token.json: no such file or directory");
     decodeToken := Ok "cached-token";
     scan := Ok "code";
     exchange := Ok "new-token";
     openForSave := Some (ExternalError "open token.json: permission denied");
     newService := Ok tt;
     savedId := Ok "doc-1";
     fetched := Ok (emptyDoc "doc-1");
     created := Ok (emptyDoc "new-doc") |}.

(** No credentials file. *)
Definition noSecret : Scenario :=
  {| secret := Err (ExternalError "open credentials.json: no such file or directory");
     config := Ok tt;
     openToken := None;
     decodeToken := Ok "cached-token";
     scan := Ok "code";
     exchange := Ok "new-token";
     openForSave := None;
     newService := Ok tt;
     savedId := Ok "doc-1";
     fetched := Ok (emptyDoc "doc-1");
     created := Ok (emptyDoc "new-doc") |}.

(** The saved document no longer exists, or cannot be created. *)
Definition docsDown : Scenario :=
  {| secret := Ok "{}";
     config := Ok tt;
     openToken := None;
     decodeToken := Ok "cached-token";
     scan := Ok "code";
     exchange := Ok "new-token";
     openForSave := None;
     newService := Ok tt;
     savedId := Err (ExternalError "open document_id.txt: no such file or directory");
     fetched := Err (ExternalError "googleapi: Error 404");
     created := Err (ExternalError "googleapi: Error 503") |}.

(** The same, with a saved document id. *)
Definition docGone : Scenario :=
  {| secret := Ok "{}";
     config := Ok tt;
     openToken := None;
     decodeToken := Ok "cached-token";
     scan := Ok "code";
     exchange := Ok "new-token";
     openForSave := None;
     newService := Ok tt;
     savedId := Ok "doc-1";
     fetched := Err (ExternalError "googleapi: Error 404");
     created := Err (ExternalError "googleapi: Error 503") |}.

End AuthDemo.


(** ** Exact kinds of effect, one per component *)

(** The effects of the scraper: the fetch of the page, the parse and the
    close of its body, and one log line per table element. *)
Definition scraperEffect (ev : Event) : Prop :=
  ev = EvHttpGet CONFLUENCE_URL \/
  ev = EvParseHtml \/
  ev = EvCloseBody \/
  exists html, ev = EvLog (LogTableHTML html).

(** The effects of the credential manager: the read of the credentials
    file, the token file opened, decoded, encoded and closed, the prompt,
    the read of the code, its exchange, and the three fatal diagnostics. *)
Definition credentialEffect (ev : Event) : Prop :=
  ev = EvReadFile CREDENTIALS_PATH \/
  ev = EvOpen TOKEN_PATH \/
  ev = EvJsonDecode TOKEN_PATH \/
  ev = EvCloseFile TOKEN_PATH \/
  ev = EvOpenFile TOKEN_PATH \/
  ev = EvJsonEncode TOKEN_PATH \/
  ev = EvScan \/
  ev = EvPrint (PrintSavingCredential TOKEN_PATH) \/
  (exists authCode, ev = EvExchange authCode) \/
  (exists authURL, ev = EvPrint (PrintAuthPrompt authURL)) \/
  (exists e, ev = EvLog (LogFatal (UnableToReadAuthorizationCode e))) \/
  (exists e, ev = EvLog (LogFatal (UnableToRetrieveTokenFromWeb e))) \/
  (exists e, ev = EvLog (LogFatal (UnableToCacheOAuthToken e))).

(** The effects of the document locator: the id file read, a document
    fetched by id, the document created under the fixed title, the id file
    written. *)
Definition locatorEffect (ev : Event) : Prop :=
  ev = EvReadFile DOCUMENT_ID_PATH \/
  (exists id, ev = EvDocsGet id) \/
  ev = EvDocsCreate "HFLabsTestTaskTableDocument" \/
  (exists data, ev = EvWriteFile DOCUMENT_ID_PATH data).

(** The three steps of [main] before the document writer, run from [tr]
    and each returning a value: the tables, the service and the document,
    with the trace [tr3] at which the document is located. *)
Definition located {Config Token Client Service Selection : Type}
    (E : Env Config Token Client Service Selection) (tr : Trace)
    (tables : list table) (srv : Service) (doc : Document) (tr3 : Trace) : Prop :=
  exists tr1 tr2,
    getTables E tr = (Ret (Ok tables), tr1) /\
    getService E (tr1 ++ [EvLog (LogTablesCount (len tables))]) = (Ret (Ok srv), tr2) /\
    getDocument E srv tr2 = (Ret (Ok doc), tr3).

(** The condition under which the credential manager ends the process with
    the diagnostic [d]: no cached token ([tr0] is the trace after the
    attempt to load one), and the read of the code, its exchange, or the
    opening of the token file for writing fails. *)
Definition flowFails {Config Token Client Service Selection : Type}
    (E : Env Config Token Client Service Selection) (config : Config)
    (tr0 : Trace) (d : Diag) : Prop :=
  let trP := tr0 ++ [EvPrint (PrintAuthPrompt (oauth2_AuthCodeURL E config))] in
  (exists e, fmt_Scan E trP = Err e /\ d = UnableToReadAuthorizationCode e) \/
  (exists authCode e,
      fmt_Scan E trP = Ok authCode /\
      oauth2_Exchange E (trP ++ [EvScan]) config authCode = Err e /\
      d = UnableToRetrieveTokenFromWeb e) \/
  (exists authCode tok e,
      fmt_Scan E trP = Ok authCode /\
      oauth2_Exchange E (trP ++ [EvScan]) config authCode = Ok tok /\
      os_OpenFile E
        (trP ++ [EvScan; EvExchange authCode; EvPrint (PrintSavingCredential TOKEN_PATH)])
        TOKEN_PATH = Some e /\
      d = UnableToCacheOAuthToken e).

(** ** A document that holds two tables *)

Module TwoTables.

(** The first table starts at 2, the second, the last of the body, at 15. *)
Definition body : Body :=
  {| Content :=
       [Some Demo.sectionBreak;
        Some (Demo.paragraph 1 2);
        Some {| se_StartIndex := 2;
                se_EndIndex := 14;
                se_Table := Some (Demo.emptyTable 2 2 2) |};
        Some (Demo.paragraph 14 15);
        Some {| se_StartIndex := 15;
                se_EndIndex := 27;
                se_Table := Some (Demo.emptyTable 15 2 2) |};
        Some (Demo.paragraph 27 28)] |}.

Definition scenario : Demo.Scenario :=
  {| Demo.status := 200;
     Demo.statusText := "200 OK";
     Demo.page := Demo.samplePage;
     Demo.convert := fun s => Ok s;
     Demo.readFile := Demo.allFiles;
     Demo.writeFile := None;
     Demo.getDoc := fun docId _ => Ok {| DocumentId := docId; doc_Body := Some body |};
     Demo.batchUpdateDoc := Demo.service |}.

End TwoTables.


(** * Properties *)

(** ** Arithmetic of [int64] *)

Lemma Int64_wrap_in_range (z : Z) : Int64.in_range z -> Int64.wrap z = z.
Proof.
  unfold Int64.in_range, Int64.min_int, Int64.max_int, Int64.wrap.
  intros Hz. rewrite Z.mod_small; lia.
Qed.

Lemma Int64_wrap_add_l (a b : Z) : Int64.wrap (Int64.wrap a + b) = Int64.wrap (a + b).
Proof.
  unfold Int64.wrap. f_equal.
  replace ((a + 2 ^ 63) mod 2 ^ 64 - 2 ^ 63 + b + 2 ^ 63)
    with ((a + 2 ^ 63) mod 2 ^ 64 + b) by lia.
  rewrite Zplus_mod_idemp_l. f_equal. lia.
Qed.

Lemma Int64_wrap_add_r (a b : Z) : Int64.wrap (a + Int64.wrap b) = Int64.wrap (a + b).
Proof. rewrite (Z.add_comm a), Int64_wrap_add_l. f_equal. lia. Qed.

(** ** Counting runes *)

Lemma utf8_count_from_bounds (skip : nat) (s : list Z) :
  0 <= utf8.count_from skip s <= Z.of_nat (List.length s).
Proof.
  revert skip. induction s as [|c s IH]; intros skip.
  - simpl. lia.
  - cbn [utf8.count_from List.length]. destruct skip as [|k].
    + specialize (IH (Nat.pred (utf8.rune_width (c :: s)))). lia.
    + specialize (IH k). lia.
Qed.

(** A string has at most one rune per byte. *)
Lemma RuneCountInString_bounds (s : string) :
  0 <= utf8.RuneCountInString s <= Z.of_nat (String.length s).
Proof.
  unfold utf8.RuneCountInString.
  pose proof (utf8_count_from_bounds 0 (List.map utf8.byte_val (list_ascii_of_string s))) as H.
  rewrite length_map in H.
  replace (List.length (list_ascii_of_string s)) with (String.length s) in H; [exact H|].
  clear H. induction s as [|a s IH]; simpl; [reflexivity|now f_equal].
Qed.

Example RuneCountInString_ascii : utf8.RuneCountInString "ab" = 2.
Proof. reflexivity. Qed.

(** U+00E9 is the two bytes C3 A9 and counts once. *)
Example RuneCountInString_two_bytes :
  utf8.RuneCountInString (String (ascii_of_nat 195) (String (ascii_of_nat 169) "x")) = 2.
Proof. reflexivity. Qed.

(** A leading byte without its continuation counts as one rune. *)
Example RuneCountInString_truncated :
  utf8.RuneCountInString (String (ascii_of_nat 226) (String (ascii_of_nat 130) "")) = 2.
Proof. reflexivity. Qed.

Lemma charCount_nonneg (texts : list string) : 0 <= charCount texts.
Proof.
  unfold charCount. induction texts as [|t texts IH]; simpl; [lia|].
  pose proof (RuneCountInString_bounds t). lia.
Qed.

(** ** The monad *)

Lemma forEach_log_ret {A B} (xs : list A) (line : A -> LogLine) (g : A -> B) (tr : Trace) :
  forEach xs (fun x => log_Println (line x) ;;; ret (g x))%go tr
  = (Ret (List.map g xs), tr ++ List.map (fun x => EvLog (line x)) xs).
Proof.
  revert tr. induction xs as [|x xs IH]; intros tr; simpl.
  - unfold ret. now rewrite app_nil_r.
  - unfold bind at 1. unfold bind at 1. unfold log_Println, emit, call. simpl.
    unfold bind at 1. rewrite IH. unfold ret. simpl.
    now rewrite <- app_assoc.
Qed.

Create HintDb never_exits.

Section Properties.

Context {Config Token Client Service Selection : Type}.
Variable E : Env Config Token Client Service Selection.

(** ** Table Scraper *)

(** What [getTables] does once the transport has delivered a response. *)
Lemma getTables_fetched (tr : Trace) (response : Response) :
  http_Get E tr CONFLUENCE_URL = Ok response ->
  getTables E tr =
    if negb (StatusCode response =? http_StatusOK)
    then (Ret (Err (NonOkayStatus (StatusCode response) (Status response))),
          tr ++ [EvHttpGet CONFLUENCE_URL; EvCloseBody])
    else
      match goquery_NewDocumentFromReader E (tr ++ [EvHttpGet CONFLUENCE_URL])
              (Response_Body response) with
      | Err e =>
          (Ret (Err e), tr ++ [EvHttpGet CONFLUENCE_URL; EvParseHtml; EvCloseBody])
      | Ok document =>
          let found := goquery_Find E document ".confluenceTable" in
          (Ret (Ok (List.map (scrapeTable E) found)),
           tr ++ [EvHttpGet CONFLUENCE_URL; EvParseHtml]
              ++ List.map (fun t => EvLog (LogTableHTML (fst (goquery_Html E t)))) found
              ++ [EvCloseBody])
      end.
Proof.
  intros Hget. unfold getTables, bind at 1, call at 1. rewrite Hget.
  unfold defer.
  destruct (negb (StatusCode response =? http_StatusOK)).
  - unfold ret, emit, call. simpl. now rewrite <- app_assoc.
  - unfold bind at 1, call at 1.
    destruct (goquery_NewDocumentFromReader E (tr ++ [EvHttpGet CONFLUENCE_URL])
                (Response_Body response)) as [document|e].
    + unfold bind at 1.
      rewrite (forEach_log_ret _ (fun t => LogTableHTML (fst (goquery_Html E t)))
                 (scrapeTable E)).
      unfold ret, emit, call. simpl.
      now rewrite <- !app_assoc.
    + unfold ret, emit, call. simpl. now rewrite <- !app_assoc.
Qed.

Lemma getTables_transport_failed (tr : Trace) (e : error) :
  http_Get E tr CONFLUENCE_URL = Err e ->
  getTables E tr = (Ret (Err e), tr ++ [EvHttpGet CONFLUENCE_URL]).
Proof.
  intros Hget. unfold getTables, bind at 1, call at 1. now rewrite Hget.
Qed.

(** C9: the cell-markup-stripping function never fails.  When the
    HTML-to-text conversion returns an error, the input string is returned
    unchanged; when it succeeds, its text is returned.  A conversion error
    therefore cannot make scraping fail: whenever the page is fetched with
    status 200 and parsed, [getTables] returns tables, whatever the
    converter does on the cells. *)
Theorem stripHtmlTags_never_fails :
  (forall s e, html2text_FromString E s = Err e -> stripHtmlTags E s = s) /\
  (forall s text, html2text_FromString E s = Ok text -> stripHtmlTags E s = text) /\
  (forall tr response document,
      http_Get E tr CONFLUENCE_URL = Ok response ->
      StatusCode response = http_StatusOK ->
      goquery_NewDocumentFromReader E (tr ++ [EvHttpGet CONFLUENCE_URL])
        (Response_Body response) = Ok document ->
      fst (getTables E tr)
      = Ret (Ok (List.map (scrapeTable E) (goquery_Find E document ".confluenceTable")))).
Proof.
  split; [|split].
  - intros s e H. unfold stripHtmlTags. now rewrite H.
  - intros s text H. unfold stripHtmlTags. now rewrite H.
  - intros tr response document Hget Hstatus Hparse.
    rewrite (getTables_fetched tr response Hget), Hstatus, Hparse.
    reflexivity.
Qed.

(** C7: when the page is fetched and parsed and no element matches the
    table-class marker, the scraper returns an empty sequence of tables
    and no error. *)
Theorem getTables_no_matching_element (tr : Trace) (response : Response)
    (document : Selection) :
  http_Get E tr CONFLUENCE_URL = Ok response ->
  StatusCode response = http_StatusOK ->
  goquery_NewDocumentFromReader E (tr ++ [EvHttpGet CONFLUENCE_URL])
    (Response_Body response) = Ok document ->
  goquery_Find E document ".confluenceTable" = [] ->
  getTables E tr
  = (Ret (Ok []), tr ++ [EvHttpGet CONFLUENCE_URL; EvParseHtml; EvCloseBody]).
Proof.
  intros Hget Hstatus Hparse Hfind.
  rewrite (getTables_fetched tr response Hget), Hstatus, Hparse.
  simpl. rewrite Hfind. reflexivity.
Qed.

(** C4, amended: the table fetch always returns, and it returns an error
    exactly when the transport fails, or the response status is not 200,
    or the body cannot be parsed as HTML.  A status of the 2xx class other
    than 200 makes the fetch fail. *)
Theorem getTables_fails_iff (tr : Trace) :
  (exists r, fst (getTables E tr) = Ret r) /\
  ((exists e, fst (getTables E tr) = Ret (Err e)) <->
   ((exists e, http_Get E tr CONFLUENCE_URL = Err e) \/
    (exists response,
        http_Get E tr CONFLUENCE_URL = Ok response /\
        (StatusCode response <> http_StatusOK \/
         exists e,
           goquery_NewDocumentFromReader E (tr ++ [EvHttpGet CONFLUENCE_URL])
             (Response_Body response) = Err e)))).
Proof.
  destruct (http_Get E tr CONFLUENCE_URL) as [response|e0] eqn:Hget.
  - rewrite (getTables_fetched tr response Hget).
    destruct (StatusCode response =? http_StatusOK) eqn:Hs; simpl.
    + apply Z.eqb_eq in Hs.
      destruct (goquery_NewDocumentFromReader E (tr ++ [EvHttpGet CONFLUENCE_URL])
                  (Response_Body response)) as [document|e1] eqn:Hparse; simpl.
      * split; [eauto|]. split.
        -- intros [e He]. discriminate.
        -- intros [[e He]|[resp [Hr Hcase]]]; [discriminate|].
           injection Hr as <-.
           destruct Hcase as [Hne|[e He]]; [contradiction|congruence].
      * split; [eauto|]. split; [|eauto].
        intros _. right. exists response. split; [reflexivity|]. right. eauto.
    + apply Z.eqb_neq in Hs.
      split; [eauto|]. split; [|eauto].
      intros _. right. exists response. split; [reflexivity|]. now left.
  - rewrite (getTables_transport_failed tr e0 Hget). simpl.
    split; [eauto|]. split; [|eauto]. intros _. left. eauto.
Qed.

(** ** Document Locator *)

(** C10: on the create-new-document path (the document id file cannot be
    read and the create call succeeds) the locator returns the new
    document, whatever the attempt to write the id file answers: a write
    error does not reach the caller. *)
Theorem getDocument_create_ignores_write_error (srv : Service) (tr : Trace)
    (e : error) (doc : Document) (written : option error) :
  let title := "HFLabsTestTaskTableDocument" in
  let tr1 := tr ++ [EvReadFile DOCUMENT_ID_PATH] in
  let tr2 := tr1 ++ [EvDocsCreate title] in
  os_ReadFile E tr DOCUMENT_ID_PATH = Err e ->
  docs_Create E srv tr1 title = Ok doc ->
  os_WriteFile E tr2 DOCUMENT_ID_PATH (DocumentId doc) = written ->
  getDocument E srv tr
  = (Ret (Ok doc), tr2 ++ [EvWriteFile DOCUMENT_ID_PATH (DocumentId doc)]).
Proof.
  intros title tr1 tr2 Hread Hcreate _.
  unfold getDocument, bind at 1, call at 1. rewrite Hread.
  unfold bind at 1, call at 1. fold tr1. fold title. rewrite Hcreate.
  reflexivity.
Qed.

(** ** Document Writer: clear *)

Lemma index_nth_error {A} (s : list A) (n : nat) (a : A) (tr : Trace) :
  nth_error s n = Some a -> index s (Z.of_nat n) tr = (Ret a, tr).
Proof.
  intros H. unfold index.
  assert (n < List.length s)%nat as Hlt by (apply nth_error_Some; congruence).
  replace (Z.of_nat n <? 0) with false by (symmetry; apply Z.ltb_ge; lia).
  replace (Z.of_nat (List.length s) <=? Z.of_nat n) with false
    by (symmetry; apply Z.leb_gt; lia).
  simpl. rewrite Nat2Z.id, H. reflexivity.
Qed.

Lemma index_head {A} (a : A) (s : list A) (tr : Trace) :
  index (a :: s) 0 tr = (Ret a, tr).
Proof. exact (index_nth_error (a :: s) 0 a tr eq_refl). Qed.

Lemma clearDocument_get_failed (docId : string) (srv : Service) (tr : Trace) (e : error) :
  docs_Get E srv tr docId = Err e ->
  clearDocument E docId srv tr = (Ret (Some e), tr ++ [EvDocsGet docId]).
Proof.
  intros Hget. unfold clearDocument, bind at 1, call at 1. now rewrite Hget.
Qed.

Lemma clearDocument_empty_body (docId : string) (srv : Service) (tr : Trace)
    (doc : Document) (body : Body) :
  docs_Get E srv tr docId = Ok doc ->
  doc_Body doc = Some body ->
  Content body = [] ->
  clearDocument E docId srv tr = (Ret None, tr ++ [EvDocsGet docId]).
Proof.
  intros Hget Hbody Hcontent.
  unfold clearDocument, bind at 1, call at 1. rewrite Hget, Hbody.
  unfold bind at 1. simpl. rewrite Hcontent. reflexivity.
Qed.

Lemma clearDocument_nonempty_body (docId : string) (srv : Service) (tr : Trace)
    (doc : Document) (body : Body) (first last : StructuralElement) :
  docs_Get E srv tr docId = Ok doc ->
  doc_Body doc = Some body ->
  nth_error (Content body) 0 = Some (Some first) ->
  nth_error (Content body) (List.length (Content body) - 1) = Some (Some last) ->
  let request :=
    DeleteContentRange (Int64.add (se_StartIndex first) 1)
                       (Int64.sub (se_EndIndex last) 1) in
  let tr1 :=
    tr ++ [EvDocsGet docId; EvLog (LogIndices (se_StartIndex first) (se_EndIndex last))] in
  let r := docs_BatchUpdate E srv tr1 docId [request] in
  clearDocument E docId srv tr
  = (Ret (error_of r),
     tr1 ++ [EvBatchUpdate docId [request]; EvLog (LogBatchUpdateResponse (response_of r))]).
Proof.
  intros Hget Hbody Hfirst Hlast request tr1 r.
  unfold clearDocument, bind at 1, call at 1. rewrite Hget, Hbody.
  unfold bind at 1. simpl.
  assert (0 < List.length (Content body))%nat as Hlen
    by (apply nth_error_Some; congruence).
  unfold len.
  replace (Z.of_nat (List.length (Content body)) =? 0) with false
    by (symmetry; apply Z.eqb_neq; lia).
  unfold bind at 1.
  rewrite (index_nth_error (Content body) 0 (Some first) _ Hfirst).
  unfold bind at 1. simpl.
  unfold bind at 1.
  replace (Z.of_nat (List.length (Content body)) - 1)
    with (Z.of_nat (List.length (Content body) - 1)) by lia.
  rewrite (index_nth_error (Content body) _ (Some last) _ Hlast).
  unfold bind at 1. simpl.
  unfold bind at 1, log_Println, emit, call at 1.
  unfold bind at 1, batchUpdate, call at 1.
  unfold bind at 1, call at 1, ret.
  subst r tr1 request. rewrite <- !app_assoc. simpl. reflexivity.
Qed.

(** C5: when the document fetched by the clear operation has a body with
    zero content segments, the operation is a no-op and succeeds.
    Otherwise it issues exactly one batch update that holds exactly one
    delete-range request, from the first segment's start offset plus one
    to the last segment's end offset minus one (in [int64] arithmetic,
    which is the integers' whenever the two bounds are [int64] values),
    and returns what that request answers. *)
Theorem clearDocument_deletes_interior (docId : string) (srv : Service) (tr : Trace)
    (doc : Document) (body : Body) :
  docs_Get E srv tr docId = Ok doc ->
  doc_Body doc = Some body ->
  (Content body = [] ->
   clearDocument E docId srv tr = (Ret None, tr ++ [EvDocsGet docId])) /\
  (forall first last,
      nth_error (Content body) 0 = Some (Some first) ->
      nth_error (Content body) (List.length (Content body) - 1) = Some (Some last) ->
      let request :=
        DeleteContentRange (Int64.add (se_StartIndex first) 1)
                           (Int64.sub (se_EndIndex last) 1) in
      let tr1 :=
        tr ++ [EvDocsGet docId;
               EvLog (LogIndices (se_StartIndex first) (se_EndIndex last))] in
      let r := docs_BatchUpdate E srv tr1 docId [request] in
      clearDocument E docId srv tr
      = (Ret (error_of r),
         tr1 ++ [EvBatchUpdate docId [request];
                 EvLog (LogBatchUpdateResponse (response_of r))]) /\
      (Int64.in_range (se_StartIndex first + 1) ->
       Int64.in_range (se_EndIndex last - 1) ->
       request = DeleteContentRange (se_StartIndex first + 1) (se_EndIndex last - 1))).
Proof.
  intros Hget Hbody. split.
  - intros Hempty. now apply (clearDocument_empty_body docId srv tr doc body).
  - intros first last Hfirst Hlast request tr1 r. split.
    + now apply (clearDocument_nonempty_body docId srv tr doc body first last).
    + intros Hs He. subst request. unfold Int64.add, Int64.sub.
      now rewrite !Int64_wrap_in_range.
Qed.

(** C3, amended: clearing a document whose body has exactly one content
    segment is not a no-op.  One delete-range request from start+1 to
    end-1 is issued, also when start+1 exceeds end-1; only a body with
    zero segments is left untouched. *)
Theorem clearDocument_one_segment_issues_delete (docId : string) (srv : Service)
    (tr : Trace) (doc : Document) (segment : StructuralElement) :
  docs_Get E srv tr docId = Ok doc ->
  doc_Body doc = Some {| Content := [Some segment] |} ->
  let request :=
    DeleteContentRange (Int64.add (se_StartIndex segment) 1)
                       (Int64.sub (se_EndIndex segment) 1) in
  let tr1 :=
    tr ++ [EvDocsGet docId;
           EvLog (LogIndices (se_StartIndex segment) (se_EndIndex segment))] in
  snd (clearDocument E docId srv tr)
  = tr1 ++ [EvBatchUpdate docId [request];
            EvLog (LogBatchUpdateResponse
                     (response_of (docs_BatchUpdate E srv tr1 docId [request])))].
Proof.
  intros Hget Hbody request tr1.
  rewrite (clearDocument_nonempty_body docId srv tr doc _ segment segment Hget Hbody);
    reflexivity.
Qed.

(** ** Document Writer: insert table *)

Lemma checkRows_accepts (colCnt i : Z) (rows : list row) :
  Forall (fun r => len (entries r) = colCnt) rows ->
  checkRows colCnt i rows = None.
Proof.
  intros H. revert i. induction H as [|r rows Hr _ IH]; intros i; simpl.
  - reflexivity.
  - rewrite Hr, Z.eqb_refl. simpl. apply IH.
Qed.

Lemma checkRows_rejects (colCnt i : Z) (rows : list row) (r : row) :
  In r rows ->
  len (entries r) <> colCnt ->
  exists n rowNo, checkRows colCnt i rows = Some (InvalidTable colCnt n rowNo).
Proof.
  intros Hin Hne. revert i.
  induction rows as [|r' rows IH]; intros i; simpl; [contradiction|].
  destruct (len (entries r') =? colCnt) eqn:Hlen; simpl.
  - apply Z.eqb_eq in Hlen. destruct Hin as [->|Hin]; [contradiction|].
    now apply IH.
  - eauto.
Qed.

(** C2: a table with zero rows, or with a row whose cell count differs
    from the first row's, makes the insert operation return a validation
    error with the trace unchanged: no insert-table request, and no other
    call or output, happens before validation passes. *)
Theorem insertTable_rejects_before_any_call (docId : string) (srv : Service)
    (tbl : table) (tr : Trace) :
  contents tbl = [] \/ ragged tbl ->
  exists e,
    validation_error e /\
    insertTableToDocument E docId srv tbl tr = (Ret (Some e), tr).
Proof.
  intros [Hempty|(row0 & r & Hhd & Hin & Hne)].
  - exists EmptyTable. split; [now left|].
    unfold insertTableToDocument, len. now rewrite Hempty.
  - destruct (contents tbl) as [|row0' rest] eqn:Hc; [discriminate|].
    injection Hhd as ->.
    destruct (checkRows_rejects (len (entries row0)) 0 (row0 :: rest) r) as (n & rowNo & Hchk).
    + exact Hin.
    + unfold len. lia.
    + exists (InvalidTable (len (entries row0)) n rowNo). split.
      * right. eauto.
      * unfold insertTableToDocument. rewrite Hc.
        replace (len (row0 :: rest) =? 0) with false
          by (symmetry; apply Z.eqb_neq; unfold len; simpl; lia).
        unfold bind at 1.
        rewrite index_head.
        rewrite Hchk. reflexivity.
Qed.

(** A validated table reaches the insert-table request. *)
Lemma insertTable_validated (docId : string) (srv : Service) (tbl : table)
    (tr : Trace) :
  rectangular tbl ->
  exists row0 rest,
    contents tbl = row0 :: rest /\
    let request := InsertTable (len (contents tbl)) (len (entries row0)) in
    let r := docs_BatchUpdate E srv tr docId [request] in
    let tr1 := tr ++ [EvBatchUpdate docId [request];
                      EvLog (LogBatchUpdateResponse (response_of r))] in
    insertTableToDocument E docId srv tbl tr
    = match r with
      | Err err => (Ret (Some err), tr1)
      | Ok _ =>
          match docs_Get E srv tr1 docId with
          | Err err => (Ret (Some err), tr1 ++ [EvDocsGet docId])
          | Ok doc =>
              (body <- deref (doc_Body doc) ;;
               tableIdx <- scanTables (Content body) 0 (-1) ;;
               if tableIdx =? -1 then ret (Some LastTableNotFound)
               else
                 elem <- index (Content body) tableIdx ;;
                 elem <- deref elem ;;
                 tb <- deref (se_Table elem) ;;
                 st <- rowsLoop tbl (TableRows tb) 0 ([], 0) ;;
                 r <- batchUpdate E srv docId (fst st) ;;
                 log_Println (LogBatchUpdateResponse (response_of r)) ;;;
                 ret (error_of r))%go (tr1 ++ [EvDocsGet docId])
          end
      end.
Proof.
  unfold rectangular. intros Hrect.
  destruct (contents tbl) as [|row0 rest] eqn:Hc; [contradiction|].
  exists row0, rest. split; [reflexivity|].
  set (request := InsertTable (len (row0 :: rest)) (len (entries row0))).
  set (r := docs_BatchUpdate E srv tr docId [request]).
  set (tr1 := tr ++ [EvBatchUpdate docId [request];
                     EvLog (LogBatchUpdateResponse (response_of r))]).
  unfold insertTableToDocument. rewrite Hc.
  replace (len (row0 :: rest) =? 0) with false
    by (symmetry; apply Z.eqb_neq; unfold len; simpl; lia).
  unfold bind at 1.
  rewrite index_head.
  rewrite checkRows_accepts.
  2:{ eapply Forall_impl; [|exact Hrect]. intros a Ha. unfold len. now rewrite Ha. }
  unfold bind at 1, batchUpdate at 1, call at 1.
  unfold bind at 1, log_Println at 1, emit at 1, call at 1.
  fold request. fold r.
  replace ((tr ++ [EvBatchUpdate docId [request]])
             ++ [EvLog (LogBatchUpdateResponse (response_of r))]) with tr1
    by (subst tr1; now rewrite <- app_assoc).
  destruct r as [resp|err]; [|reflexivity].
  unfold bind at 1, call at 1.
  destruct (docs_Get E srv tr1 docId) as [doc|err]; reflexivity.
Qed.

Lemma scanTables_no_table (content : list (option StructuralElement)) (i idx : Z)
    (tr : Trace) :
  Forall notATable content ->
  scanTables content i idx tr = (Ret idx, tr).
Proof.
  intros H. revert i. induction H as [|p content (elem & -> & Hnt) _ IH]; intros i.
  - reflexivity.
  - simpl. unfold bind, deref, ret. rewrite Hnt. simpl. apply IH.
Qed.

Lemma scanTables_last_table (pre post : list (option StructuralElement))
    (elem : StructuralElement) (tb : Table) (i idx : Z) (tr : Trace) :
  Forall nonNil pre ->
  se_Table elem = Some tb ->
  Forall notATable post ->
  scanTables (pre ++ Some elem :: post) i idx tr = (Ret (i + len pre), tr).
Proof.
  intros Hpre Htb Hpost. revert i idx.
  induction Hpre as [|p pre Hp _ IH]; intros i idx.
  - simpl. unfold bind, deref, ret. rewrite Htb. simpl.
    rewrite (scanTables_no_table post (i + 1) i tr Hpost).
    unfold len. simpl. f_equal. f_equal. lia.
  - destruct p as [e|]; [|now contradiction Hp].
    simpl. unfold bind at 1, deref, ret. rewrite IH.
    unfold len. f_equal. f_equal. cbn [Datatypes.length]. lia.
Qed.

(** After a successful insert-table request and a successful re-fetch,
    the operation scans the body that was read back. *)
Lemma insertTable_refetched (docId : string) (srv : Service) (tbl : table)
    (tr : Trace) (row0 : row) (resp : BatchUpdateResponse) (doc : Document)
    (body : Body) :
  rectangular tbl ->
  hd_error (contents tbl) = Some row0 ->
  let request := InsertTable (len (contents tbl)) (len (entries row0)) in
  let tr1 := tr ++ [EvBatchUpdate docId [request];
                    EvLog (LogBatchUpdateResponse (Some resp))] in
  docs_BatchUpdate E srv tr docId [request] = Ok resp ->
  docs_Get E srv tr1 docId = Ok doc ->
  doc_Body doc = Some body ->
  insertTableToDocument E docId srv tbl tr
  = (tableIdx <- scanTables (Content body) 0 (-1) ;;
     if tableIdx =? -1 then ret (Some LastTableNotFound)
     else
       elem <- index (Content body) tableIdx ;;
       elem <- deref elem ;;
       tb <- deref (se_Table elem) ;;
       st <- rowsLoop tbl (TableRows tb) 0 ([], 0) ;;
       r <- batchUpdate E srv docId (fst st) ;;
       log_Println (LogBatchUpdateResponse (response_of r)) ;;;
       ret (error_of r))%go (tr1 ++ [EvDocsGet docId]).
Proof.
  intros Hrect Hhd request tr1 Hupdate Hget Hbody.
  destruct (insertTable_validated docId srv tbl tr Hrect) as (row0' & rest & Hc & Heq).
  rewrite Hc in Hhd. injection Hhd as ->.
  cbv zeta in Heq. rewrite Heq. clear Heq.
  fold request. rewrite Hupdate. simpl response_of. fold tr1.
  rewrite Hget. unfold bind at 1, deref at 1. rewrite Hbody. reflexivity.
Qed.

(** ... and when the body holds a table element after which no table
    follows, the requests are built from that element's table. *)
Lemma insertTable_at_last_table (docId : string) (srv : Service) (tbl : table)
    (tr : Trace) (row0 : row) (resp : BatchUpdateResponse) (doc : Document)
    (body : Body) (pre post : list (option StructuralElement))
    (elem : StructuralElement) (tb : Table) :
  rectangular tbl ->
  hd_error (contents tbl) = Some row0 ->
  let request := InsertTable (len (contents tbl)) (len (entries row0)) in
  let tr1 := tr ++ [EvBatchUpdate docId [request];
                    EvLog (LogBatchUpdateResponse (Some resp))] in
  docs_BatchUpdate E srv tr docId [request] = Ok resp ->
  docs_Get E srv tr1 docId = Ok doc ->
  doc_Body doc = Some body ->
  Content body = pre ++ Some elem :: post ->
  Forall nonNil pre ->
  se_Table elem = Some tb ->
  Forall notATable post ->
  insertTableToDocument E docId srv tbl tr
  = (st <- rowsLoop tbl (TableRows tb) 0 ([], 0) ;;
     r <- batchUpdate E srv docId (fst st) ;;
     log_Println (LogBatchUpdateResponse (response_of r)) ;;;
     ret (error_of r))%go (tr1 ++ [EvDocsGet docId]).
Proof.
  intros Hrect Hhd request tr1 Hupdate Hget Hbody Hcontent Hpre Htb Hpost.
  rewrite (insertTable_refetched docId srv tbl tr row0 resp doc body
             Hrect Hhd Hupdate Hget Hbody).
  fold request. fold tr1. rewrite Hcontent.
  unfold bind at 1.
  rewrite (scanTables_last_table pre post elem tb 0 (-1) _ Hpre Htb Hpost).
  replace (0 + len pre =? -1) with false
    by (symmetry; apply Z.eqb_neq; unfold len; lia).
  unfold bind at 1.
  replace (0 + len pre) with (Z.of_nat (List.length pre)) by (unfold len; lia).
  rewrite (index_nth_error _ (List.length pre) (Some elem)).
  2:{ rewrite nth_error_app2 by lia. now rewrite Nat.sub_diag. }
  unfold bind at 1, deref at 1, ret at 1.
  unfold bind at 1, deref at 1. rewrite Htb. reflexivity.
Qed.

(** *** The insert-text requests *)

Lemma charCount_app (a b : list string) :
  charCount (a ++ b) = charCount a + charCount b.
Proof.
  unfold charCount. induction a as [|t a IH]; simpl; [reflexivity|].
  rewrite IH. lia.
Qed.

Lemma placements_app (tbl : table) (a b : list (Z * Z * TableCell))
    (pl : list (string * Z)) :
  placements tbl (a ++ b) = Some pl ->
  exists pa pb,
    placements tbl a = Some pa /\ placements tbl b = Some pb /\ pl = pa ++ pb.
Proof.
  revert pl. induction a as [|[[r c] cell] a IH]; intros pl H; simpl in *.
  - exists [], pl. auto.
  - destruct (sourceText tbl r c) as [text|]; [|discriminate].
    destruct (placements tbl (a ++ b)) as [pl'|] eqn:Hrest; [|discriminate].
    injection H as <-.
    destruct (IH pl' eq_refl) as (pa & pb & Ha & Hb & ->).
    exists ((text, tc_StartIndex cell) :: pa), pb. rewrite Ha. auto.
Qed.

Lemma textRequestsAfter_app (earlier : list string) (pa pb : list (string * Z)) :
  textRequestsAfter earlier (pa ++ pb)
  = textRequestsAfter earlier pa
      ++ textRequestsAfter (earlier ++ List.map fst pa) pb.
Proof.
  revert earlier. induction pa as [|[text start] pa IH]; intros earlier; simpl.
  - now rewrite app_nil_r.
  - rewrite IH, <- app_assoc. reflexivity.
Qed.

Lemma textRequestsAfter_length (earlier : list string) (pl : list (string * Z)) :
  List.length (textRequestsAfter earlier pl) = List.length pl.
Proof.
  revert earlier. induction pl as [|[text start] pl IH]; intros earlier; simpl;
    [reflexivity|now rewrite IH].
Qed.

Lemma textRequestsAfter_nth (earlier : list string) (pl : list (string * Z))
    (i : nat) (text : string) (start : Z) :
  nth_error pl i = Some (text, start) ->
  nth_error (textRequestsAfter earlier pl) i
  = Some (InsertText text
            (Int64.wrap (start + 1
                         + charCount (earlier ++ List.map fst (firstn i pl))))).
Proof.
  revert earlier i. induction pl as [|[text' start'] pl IH]; intros earlier i H.
  - destruct i; discriminate.
  - destruct i as [|i]; simpl in *.
    + injection H as -> ->. now rewrite app_nil_r.
    + rewrite (IH _ _ H), <- app_assoc. reflexivity.
Qed.

(** Reading [tbl.contents[rowIdx].entries[cellIdx]] where it exists. *)
Lemma sourceText_index {B} (tbl : table) (rowIdx cellIdx : Z) (text : string)
    (k : string -> M B) (tr : Trace) :
  sourceText tbl rowIdx cellIdx = Some text ->
  (r <- index (contents tbl) rowIdx ;;
   text <- index (entries r) cellIdx ;;
   k text)%go tr = k text tr.
Proof.
  unfold sourceText. intros H.
  destruct ((rowIdx <? 0) || (cellIdx <? 0)) eqn:Hneg; [discriminate|].
  apply orb_false_iff in Hneg. destruct Hneg as [Hr Hc].
  apply Z.ltb_ge in Hr. apply Z.ltb_ge in Hc.
  destruct (nth_error (contents tbl) (Z.to_nat rowIdx)) as [r|] eqn:Hrow; [|discriminate].
  unfold bind at 1.
  rewrite <- (Z2Nat.id rowIdx Hr), (index_nth_error _ _ r tr Hrow).
  unfold bind at 1.
  rewrite <- (Z2Nat.id cellIdx Hc) at 1.
  rewrite (index_nth_error _ _ text tr H). reflexivity.
Qed.

Lemma cellsLoop_spec (tbl : table) (rowIdx : Z) (cells : list (option TableCell))
    (cellIdx : Z) (requests : list Request) (earlier : list string)
    (pl : list (string * Z)) (tr : Trace) :
  placements tbl (cellsFrom rowIdx cellIdx cells) = Some pl ->
  cellsLoop tbl rowIdx cells cellIdx (requests, Int64.wrap (charCount earlier)) tr
  = (Ret (requests ++ textRequestsAfter earlier pl,
          Int64.wrap (charCount (earlier ++ List.map fst pl))),
     tr).
Proof.
  revert cellIdx requests earlier pl.
  induction cells as [|[cell|] cells IH]; intros cellIdx requests earlier pl H.
  - injection H as <-. simpl. now rewrite !app_nil_r.
  - unfold cellsFrom in H. simpl in H. fold (cellsFrom rowIdx (cellIdx + 1) cells) in H.
    destruct (sourceText tbl rowIdx cellIdx) as [text|] eqn:Htext; [|discriminate].
    destruct (placements tbl (cellsFrom rowIdx (cellIdx + 1) cells)) as [pl'|] eqn:Hrest;
      [|discriminate].
    injection H as <-.
    cbn [cellsLoop].
    rewrite (sourceText_index tbl rowIdx cellIdx text _ tr Htext).
    replace (Int64.add (Int64.wrap (charCount earlier)) (utf8.RuneCountInString text))
      with (Int64.wrap (charCount (earlier ++ [text]))).
    2:{ unfold Int64.add. rewrite Int64_wrap_add_l, charCount_app.
        change (charCount [text]) with (utf8.RuneCountInString text + 0).
        f_equal. lia. }
    rewrite (IH _ _ _ pl' Hrest). simpl.
    rewrite <- !app_assoc. simpl.
    unfold Int64.add. rewrite Int64_wrap_add_l, Int64_wrap_add_r. reflexivity.
  - unfold cellsFrom in H. simpl in H. fold (cellsFrom rowIdx (cellIdx + 1) cells) in H.
    cbn [cellsLoop]. now apply IH.
Qed.

Lemma rowsLoop_spec (tbl : table) (rows : list (option TableRow)) (rowIdx : Z)
    (requests : list Request) (earlier : list string) (pl : list (string * Z))
    (tr : Trace) :
  placements tbl (rowsFrom rowIdx rows) = Some pl ->
  rowsLoop tbl rows rowIdx (requests, Int64.wrap (charCount earlier)) tr
  = (Ret (requests ++ textRequestsAfter earlier pl,
          Int64.wrap (charCount (earlier ++ List.map fst pl))),
     tr).
Proof.
  revert rowIdx requests earlier pl.
  induction rows as [|[r|] rows IH]; intros rowIdx requests earlier pl H.
  - injection H as <-. simpl. now rewrite !app_nil_r.
  - unfold rowsFrom in H. simpl in H. fold (rowsFrom (rowIdx + 1) rows) in H.
    destruct (placements_app _ _ _ _ H) as (pa & pb & Ha & Hb & ->).
    cbn [rowsLoop]. unfold bind at 1.
    rewrite (cellsLoop_spec tbl rowIdx (TableCells r) 0 requests earlier pa tr Ha).
    rewrite (IH _ _ _ pb Hb).
    rewrite textRequestsAfter_app, List.map_app, <- !app_assoc. reflexivity.
  - unfold rowsFrom in H. simpl in H. fold (rowsFrom (rowIdx + 1) rows) in H.
    cbn [rowsLoop]. now apply IH.
Qed.

Lemma rowsLoop_requests (tbl : table) (tb : Table) (pl : list (string * Z))
    (tr : Trace) :
  placements tbl (docCells tb) = Some pl ->
  rowsLoop tbl (TableRows tb) 0 ([], 0) tr
  = (Ret (textRequestsAfter [] pl, Int64.wrap (charCount (List.map fst pl))), tr).
Proof.
  intros H.
  exact (rowsLoop_spec tbl (TableRows tb) 0 [] [] pl tr H).
Qed.

(** C1, amended: when a validated table is inserted, the insert-table
    request has succeeded and the document read back ends its tables with
    a table whose non-nil cells all have a source text, then exactly one
    further batch update is submitted.  It holds one insert-text request
    per cell, in row-major order; the i-th request puts the i-th text at
    its cell's start offset plus one plus the character count of the
    texts of the cells before it (in [int64] arithmetic, which is the
    integers' on [int64] values).  In particular, for the validated rows
    ["ab","c"] followed by ["d","e"], the text "d" is placed at its
    cell's start offset plus one shifted by 3, the character count of
    "ab" and "c", not by 2; the ragged rows ["ab","c"] followed by ["d"]
    are rejected by validation and no text is inserted. *)
Theorem insertTable_text_offsets (docId : string) (srv : Service) (tbl : table)
    (tr : Trace) (row0 : row) (resp : BatchUpdateResponse) (doc : Document)
    (body : Body) (pre post : list (option StructuralElement))
    (elem : StructuralElement) (tb : Table) (pl : list (string * Z)) :
  rectangular tbl ->
  hd_error (contents tbl) = Some row0 ->
  let request := InsertTable (len (contents tbl)) (len (entries row0)) in
  let tr1 := tr ++ [EvBatchUpdate docId [request];
                    EvLog (LogBatchUpdateResponse (Some resp))] in
  let tr2 := tr1 ++ [EvDocsGet docId] in
  docs_BatchUpdate E srv tr docId [request] = Ok resp ->
  docs_Get E srv tr1 docId = Ok doc ->
  doc_Body doc = Some body ->
  Content body = pre ++ Some elem :: post ->
  Forall nonNil pre ->
  se_Table elem = Some tb ->
  Forall notATable post ->
  placements tbl (docCells tb) = Some pl ->
  let requests := textRequestsAfter [] pl in
  let r := docs_BatchUpdate E srv tr2 docId requests in
  insertTableToDocument E docId srv tbl tr
  = (Ret (error_of r),
     tr2 ++ [EvBatchUpdate docId requests;
             EvLog (LogBatchUpdateResponse (response_of r))]) /\
  List.length requests = List.length pl /\
  (forall i text start,
      nth_error pl i = Some (text, start) ->
      nth_error requests i
      = Some (InsertText text
                (Int64.wrap (start + 1 + charCount (List.map fst (firstn i pl)))))) /\
  (forall z, Int64.in_range z -> Int64.wrap z = z) /\
  (forall s00 s01 s10 s11 tr',
      rowsLoop Demo.tableAbCDE (TableRows (Demo.docTable2x2 s00 s01 s10 s11)) 0 ([], 0) tr'
      = (Ret ([InsertText "ab" (Int64.wrap (s00 + 1 + 0));
               InsertText "c" (Int64.wrap (s01 + 1 + 2));
               InsertText "d" (Int64.wrap (s10 + 1 + 3));
               InsertText "e" (Int64.wrap (s11 + 1 + 4))], 5), tr')) /\
  insertTableToDocument E docId srv Demo.tableAbCD tr
  = (Ret (Some (InvalidTable 2 1 2)), tr).
Proof.
  intros Hrect Hhd request tr1 tr2 Hupdate Hget Hbody Hcontent Hpre Htb Hpost Hpl
         requests r.
  split; [|split; [|split; [|split; [|split]]]].
  - rewrite (insertTable_at_last_table docId srv tbl tr row0 resp doc body
               pre post elem tb Hrect Hhd Hupdate Hget Hbody Hcontent Hpre Htb Hpost).
    fold request. fold tr1. fold tr2.
    unfold bind at 1. rewrite (rowsLoop_requests tbl tb pl tr2 Hpl).
    unfold bind at 1, batchUpdate at 1, call at 1.
    unfold bind at 1, log_Println, emit, call, ret. simpl fst.
    fold requests. fold r. now rewrite <- app_assoc.
  - apply textRequestsAfter_length.
  - intros i text start Hnth. subst requests.
    now rewrite (textRequestsAfter_nth [] pl i text start Hnth).
  - exact Int64_wrap_in_range.
  - intros s00 s01 s10 s11 tr'.
    rewrite (rowsLoop_requests Demo.tableAbCDE (Demo.docTable2x2 s00 s01 s10 s11)
               [("ab", s00); ("c", s01); ("d", s10); ("e", s11)] tr' eq_refl).
    reflexivity.
  - reflexivity.
Qed.

(** ** Driver *)

Lemma neverExits_ret {A} (a : A) : neverExits (ret a).
Proof. intros tr d. discriminate. Qed.

Lemma neverExits_call {A} (ev : Event) (answer : Trace -> A) :
  neverExits (call ev answer).
Proof. intros tr d. discriminate. Qed.

Lemma neverExits_panic {A} (p : PanicValue) : neverExits (@panic A p).
Proof. intros tr d. discriminate. Qed.

Lemma neverExits_bind {A B} (m : M A) (k : A -> M B) :
  neverExits m -> (forall a, neverExits (k a)) -> neverExits (bind m k).
Proof.
  intros Hm Hk tr d. unfold bind.
  specialize (Hm tr). destruct (m tr) as [[a|d'|p] tr'].
  - apply Hk.
  - now contradiction (Hm d').
  - discriminate.
Qed.

Lemma neverExits_deref {A} (p : option A) : neverExits (deref p).
Proof. destruct p; [apply neverExits_ret|apply neverExits_panic]. Qed.

Lemma neverExits_index {A} (s : list A) (i : Z) : neverExits (index s i).
Proof.
  unfold index. destruct ((i <? 0) || (Z.of_nat (List.length s) <=? i));
    [apply neverExits_panic|].
  destruct (nth_error s (Z.to_nat i)); [apply neverExits_ret|apply neverExits_panic].
Qed.

#[local] Hint Resolve neverExits_ret neverExits_call neverExits_panic neverExits_deref
  neverExits_index : never_exits.

Ltac never_exits :=
  repeat first
    [ solve [auto with never_exits]
    | apply neverExits_bind; [|intros ?]
    | match goal with
      | |- neverExits (match ?x with _ => _ end) => destruct x
      end ].

Lemma neverExits_scanTables (content : list (option StructuralElement)) (i idx : Z) :
  neverExits (scanTables content i idx).
Proof.
  revert i idx. induction content as [|p content IH]; intros i idx; simpl.
  - apply neverExits_ret.
  - apply neverExits_bind; [apply neverExits_deref|]. intros elem. apply IH.
Qed.

Lemma neverExits_cellsLoop (tbl : table) (rowIdx : Z) (cells : list (option TableCell))
    (cellIdx : Z) (st : list Request * Z) :
  neverExits (cellsLoop tbl rowIdx cells cellIdx st).
Proof.
  revert cellIdx st. induction cells as [|[cell|] cells IH]; intros cellIdx st; simpl.
  - apply neverExits_ret.
  - apply neverExits_bind; [apply neverExits_index|]. intros r.
    apply neverExits_bind; [apply neverExits_index|]. intros text.
    destruct st as [requests totalInserted]. apply IH.
  - apply IH.
Qed.

Lemma neverExits_rowsLoop (tbl : table) (rows : list (option TableRow)) (rowIdx : Z)
    (st : list Request * Z) :
  neverExits (rowsLoop tbl rows rowIdx st).
Proof.
  revert rowIdx st. induction rows as [|[r|] rows IH]; intros rowIdx st; simpl.
  - apply neverExits_ret.
  - apply neverExits_bind; [apply neverExits_cellsLoop|]. intros st'. apply IH.
  - apply IH.
Qed.

#[local] Hint Resolve neverExits_scanTables neverExits_rowsLoop : never_exits.

Lemma neverExits_clearDocument (docId : string) (srv : Service) :
  neverExits (clearDocument E docId srv).
Proof.
  unfold clearDocument, batchUpdate, log_Println, emit. never_exits.
Qed.

Lemma neverExits_insertTableToDocument (docId : string) (srv : Service) (tbl : table) :
  neverExits (insertTableToDocument E docId srv tbl).
Proof.
  unfold insertTableToDocument, batchUpdate, log_Println, emit. never_exits.
Qed.

Lemma neverExits_printed (err : option error) :
  neverExits (match err with
              | Some e => fmt_Printf (PrintError e)
              | None => ret tt
              end).
Proof. destruct err; [apply neverExits_call|apply neverExits_ret]. Qed.

Lemma neverExits_insertTables (docId : string) (srv : Service) (tables : list table) :
  neverExits (insertTables E docId srv tables).
Proof.
  induction tables as [|tbl rest IH]; simpl.
  - apply neverExits_ret.
  - apply neverExits_bind; [apply neverExits_insertTableToDocument|]. intros err.
    apply neverExits_bind; [apply neverExits_printed|]. intros _. exact IH.
Qed.

(** The loop over the tables is the state machine [InsertSteps]. *)
Lemma insertTables_steps (docId : string) (srv : Service) (tables : list table)
    (tr tr' : Trace) :
  insertTables E docId srv tables tr = (Ret tt, tr')
  <-> InsertSteps E docId srv tables tr tr'.
Proof.
  split.
  - revert tr. induction tables as [|tbl rest IH]; intros tr H.
    + injection H as <-. constructor.
    + simpl in H. unfold bind at 1 in H.
      destruct (insertTableToDocument E docId srv tbl tr) as [[err|d|p] tr1] eqn:Hstep;
        try discriminate.
      destruct err as [e|].
      * unfold bind at 1, fmt_Printf, emit, call in H.
        eapply InsertSteps_failed; [exact Hstep|]. now apply IH.
      * unfold bind at 1, ret at 1 in H.
        eapply InsertSteps_ok; [exact Hstep|]. now apply IH.
  - induction 1 as [tr|tbl rest tr tr1 tr2 Hstep _ IH|tbl rest tr tr1 tr2 e Hstep _ IH].
    + reflexivity.
    + simpl. unfold bind at 1. rewrite Hstep. unfold bind at 1, ret at 1. exact IH.
    + simpl. unfold bind at 1. rewrite Hstep.
      unfold bind at 1, fmt_Printf, emit, call. exact IH.
Qed.

(** [main] once the three fatal steps have succeeded. *)
Lemma main_located (tr tr1 tr2 tr3 : Trace) (tables : list table) (srv : Service)
    (doc : Document) :
  getTables E tr = (Ret (Ok tables), tr1) ->
  getService E (tr1 ++ [EvLog (LogTablesCount (len tables))]) = (Ret (Ok srv), tr2) ->
  getDocument E srv tr2 = (Ret (Ok doc), tr3) ->
  main E tr
  = (err <- clearDocument E (DocumentId doc) srv ;;
     match err with
     | Some e => fmt_Printf (PrintError e)
     | None => ret tt
     end ;;;
     insertTables E (DocumentId doc) srv tables)%go
      (tr3 ++ [EvLog (LogDocumentId (DocumentId doc))]).
Proof.
  intros Htables Hsrv Hdoc.
  unfold main, bind at 1. rewrite Htables.
  unfold bind at 1, log_Println at 1, emit at 1, call at 1.
  unfold bind at 1. rewrite Hsrv.
  unfold bind at 1. rewrite Hdoc.
  unfold bind at 1, log_Println at 1, emit at 1, call at 1.
  reflexivity.
Qed.

(** C6: a failure of the fetch, of the authentication or of the locate
    step ends the process with a diagnostic.  Once the three have
    succeeded the process is never ended by a diagnostic: an error of the
    clear step or of a table insertion is printed and the next insertion
    is attempted, so [main] returns whenever every step returns, however
    many of them returned an error. *)
Theorem main_fatal_and_logged_failures (tr tr1 : Trace) :
  (forall e,
      getTables E tr = (Ret (Err e), tr1) ->
      main E tr
      = (Exit (FailedToGetTables e), tr1 ++ [EvLog (LogFatal (FailedToGetTables e))])) /\
  (forall tables,
      getTables E tr = (Ret (Ok tables), tr1) ->
      let tr1' := tr1 ++ [EvLog (LogTablesCount (len tables))] in
      (forall e tr2,
          getService E tr1' = (Ret (Err e), tr2) ->
          main E tr
          = (Exit (FailedToGetService e),
             tr2 ++ [EvLog (LogFatal (FailedToGetService e))])) /\
      (forall d tr2,
          getService E tr1' = (Exit d, tr2) -> main E tr = (Exit d, tr2)) /\
      (forall srv tr2,
          getService E tr1' = (Ret (Ok srv), tr2) ->
          (forall e tr3,
              getDocument E srv tr2 = (Ret (Err e), tr3) ->
              main E tr
              = (Exit (FailedToGetDocument e),
                 tr3 ++ [EvLog (LogFatal (FailedToGetDocument e))])) /\
          (forall doc tr3,
              getDocument E srv tr2 = (Ret (Ok doc), tr3) ->
              let tr3' := tr3 ++ [EvLog (LogDocumentId (DocumentId doc))] in
              (forall d, fst (main E tr) <> Exit d) /\
              (forall err tr4 tr',
                  clearDocument E (DocumentId doc) srv tr3' = (Ret err, tr4) ->
                  (main E tr = (Ret tt, tr')
                   <-> InsertSteps E (DocumentId doc) srv tables
                         (tr4 ++ printed err) tr'))))).
Proof.
  split.
  - intros e Hfetch. unfold main, bind at 1. now rewrite Hfetch.
  - intros tables Hfetch tr1'. split; [|split].
    + intros e tr2 Hsrv. unfold main, bind at 1. rewrite Hfetch.
      unfold bind at 1, log_Println at 1, emit at 1, call at 1.
      fold tr1'. unfold bind at 1. now rewrite Hsrv.
    + intros d tr2 Hsrv. unfold main, bind at 1. rewrite Hfetch.
      unfold bind at 1, log_Println at 1, emit at 1, call at 1.
      fold tr1'. unfold bind at 1. now rewrite Hsrv.
    + intros srv tr2 Hsrv. split.
      * intros e tr3 Hdoc. unfold main, bind at 1. rewrite Hfetch.
        unfold bind at 1, log_Println at 1, emit at 1, call at 1.
        fold tr1'. unfold bind at 1. rewrite Hsrv.
        unfold bind at 1. now rewrite Hdoc.
      * intros doc tr3 Hdoc tr3'.
        rewrite (main_located tr tr1 tr2 tr3 tables srv doc Hfetch Hsrv Hdoc).
        fold tr3'. split.
        -- intros d. apply neverExits_bind; [apply neverExits_clearDocument|].
           intros err. apply neverExits_bind; [apply neverExits_printed|].
           intros _. apply neverExits_insertTables.
        -- intros err tr4 tr' Hclear. unfold bind at 1. rewrite Hclear.
           rewrite <- insertTables_steps.
           destruct err as [e|]; unfold bind at 1, fmt_Printf, emit, call, ret, printed;
             [reflexivity|now rewrite app_nil_r].
Qed.

End Properties.

(** * The program run in the simulated world *)

(** ** Table Scraper *)

(** C9 at work: with a converter that fails, a cell keeps its raw HTML. *)
Lemma stripHtmlTags_never_fails_witness :
  stripHtmlTags (Demo.env Demo.brokenConverter) "<b>x</b>" = "<b>x</b>".
Proof.
  apply (proj1 (stripHtmlTags_never_fails (Demo.env Demo.brokenConverter))
           "<b>x</b>" (ExternalError "html2text: parse error")).
  reflexivity.
Defined.

(** C7 at work: a page without table elements. *)
Lemma getTables_no_matching_element_witness :
  getTables (Demo.env Demo.noTables) []
  = (Ret (Ok []), [EvHttpGet CONFLUENCE_URL; EvParseHtml; EvCloseBody]).
Proof.
  apply (getTables_no_matching_element (Demo.env Demo.noTables) []
           {| StatusCode := 200; Status := "200 OK"; Response_Body := "<html>" |}
           (Demo.PageNode [])).
  - reflexivity.
  - reflexivity.
  - reflexivity.
  - reflexivity.
Defined.

(** C4 as stated fails: a response with the successful status 201 and a
    body that parses makes the fetch fail because of its status code. *)
Lemma getTables_rejects_status_201 :
  http_Get (Demo.env Demo.created201) [] CONFLUENCE_URL
  = Ok {| StatusCode := 201; Status := "201 Created"; Response_Body := "<html>" |} /\
  200 <= 201 < 300 /\
  goquery_NewDocumentFromReader (Demo.env Demo.created201)
    [EvHttpGet CONFLUENCE_URL] "<html>" = Ok (Demo.PageNode Demo.samplePage) /\
  getTables (Demo.env Demo.created201) []
  = (Ret (Err (NonOkayStatus 201 "201 Created")),
     [EvHttpGet CONFLUENCE_URL; EvCloseBody]).
Proof.
  split; [reflexivity|]. split; [lia|]. split; reflexivity.
Qed.

(** C4, amended, at work on the same response. *)
Lemma getTables_fails_iff_witness :
  exists e, fst (getTables (Demo.env Demo.created201) []) = Ret (Err e).
Proof.
  apply (proj2 (getTables_fails_iff (Demo.env Demo.created201) [])).
  right.
  exists {| StatusCode := 201; Status := "201 Created"; Response_Body := "<html>" |}.
  split; [reflexivity|]. left. discriminate.
Defined.

(** ** Document Locator *)

(** C10 at work: the id file cannot be written, the new document is
    returned all the same. *)
Lemma getDocument_create_ignores_write_error_witness :
  os_WriteFile (Demo.env Demo.readOnlyDir)
    [EvReadFile DOCUMENT_ID_PATH; EvDocsCreate "HFLabsTestTaskTableDocument"]
    DOCUMENT_ID_PATH "new-doc"
  = Some (ExternalError "permission denied") /\
  getDocument (Demo.env Demo.readOnlyDir) tt []
  = (Ret (Ok (Demo.documentAfter "new-doc" [EvReadFile DOCUMENT_ID_PATH])),
     [EvReadFile DOCUMENT_ID_PATH;
      EvDocsCreate "HFLabsTestTaskTableDocument";
      EvWriteFile DOCUMENT_ID_PATH "new-doc"]).
Proof.
  split; [reflexivity|].
  apply (getDocument_create_ignores_write_error (Demo.env Demo.readOnlyDir) tt []
           (ExternalError "no such file or directory")
           (Demo.documentAfter "new-doc" [EvReadFile DOCUMENT_ID_PATH])
           (Some (ExternalError "permission denied"))).
  - reflexivity.
  - reflexivity.
  - reflexivity.
Defined.

(** ** Document Writer: clear *)

(** C5 at work: an empty Google document has two segments, [0,1) and
    [1,2); the single delete-range request spans 1 to 1. *)
Lemma clearDocument_deletes_interior_witness :
  clearDocument (Demo.env Demo.normal) "doc-1" tt []
  = (Ret (Some (ExternalError "400 Bad Request")),
     [EvDocsGet "doc-1";
      EvLog (LogIndices 0 2);
      EvBatchUpdate "doc-1" [DeleteContentRange 1 1];
      EvLog (LogBatchUpdateResponse None)]).
Proof.
  apply (proj2 (clearDocument_deletes_interior (Demo.env Demo.normal) "doc-1" tt []
                  (Demo.documentAfter "doc-1" [])
                  {| Content := [Some Demo.sectionBreak; Some (Demo.paragraph 1 2)] |}
                  eq_refl eq_refl)
           Demo.sectionBreak (Demo.paragraph 1 2)).
  - reflexivity.
  - reflexivity.
Defined.

(** C3 as stated fails: the body has exactly one segment, [0,1), so
    start+1 = 1 exceeds end-1 = 0, and the delete-range request from 1 to 0
    is issued all the same. *)
Lemma clearDocument_one_segment_not_noop :
  docs_Get (Demo.env Demo.oneSegment) tt [] "doc-1"
  = Ok {| DocumentId := "doc-1";
          doc_Body := Some {| Content := [Some Demo.sectionBreak] |} |} /\
  se_StartIndex Demo.sectionBreak + 1 > se_EndIndex Demo.sectionBreak - 1 /\
  clearDocument (Demo.env Demo.oneSegment) "doc-1" tt []
  = (Ret (Some (ExternalError "400 Bad Request")),
     [EvDocsGet "doc-1";
      EvLog (LogIndices 0 1);
      EvBatchUpdate "doc-1" [DeleteContentRange 1 0];
      EvLog (LogBatchUpdateResponse None)]).
Proof.
  split; [reflexivity|]. split; [reflexivity|reflexivity].
Qed.

(** C3, amended, at work on the same document. *)
Lemma clearDocument_one_segment_issues_delete_witness :
  snd (clearDocument (Demo.env Demo.oneSegment) "doc-1" tt [])
  = [EvDocsGet "doc-1";
     EvLog (LogIndices 0 1);
     EvBatchUpdate "doc-1" [DeleteContentRange 1 0];
     EvLog (LogBatchUpdateResponse None)].
Proof.
  apply (clearDocument_one_segment_issues_delete (Demo.env Demo.oneSegment) "doc-1" tt []
           {| DocumentId := "doc-1";
              doc_Body := Some {| Content := [Some Demo.sectionBreak] |} |}
           Demo.sectionBreak).
  - reflexivity.
  - reflexivity.
Defined.

(** ** Document Writer: insert table *)

(** C2 at work: the ragged rows ["ab","c"] and ["d"] are rejected and
    nothing is sent. *)
Lemma insertTable_rejects_before_any_call_witness :
  exists e,
    validation_error e /\
    insertTableToDocument (Demo.env Demo.normal) "doc-1" tt Demo.tableAbCD []
    = (Ret (Some e), []).
Proof.
  apply (insertTable_rejects_before_any_call (Demo.env Demo.normal) "doc-1" tt
           Demo.tableAbCD []).
  right. exists {| entries := ["ab"; "c"] |}, {| entries := ["d"] |}.
  split; [reflexivity|]. split; [simpl; auto|]. simpl. discriminate.
Defined.

(** C1 as stated fails on its example.  The rows ["ab","c"] and ["d"] are
    ragged: the insert operation rejects them and places no text.  And the
    loop that builds the requests, run on these rows against cells that
    start at 10, 12 and 15, places "d" at 19 = 15 + 1 + 3: the shift is the
    character count of "ab" and "c", not 2. *)
Lemma offset_example_shift_is_not_two :
  insertTableToDocument (Demo.env Demo.normal) "doc-1" tt Demo.tableAbCD []
  = (Ret (Some (InvalidTable 2 1 2)), []) /\
  rowsLoop Demo.tableAbCD (TableRows (Demo.docTableAbCD 10 12 15)) 0 ([], 0) []
  = (Ret ([InsertText "ab" 11; InsertText "c" 15; InsertText "d" 19], 4), []) /\
  19 <> 15 + 2 /\
  19 <> 15 + 1 + 2.
Proof.
  split; [reflexivity|]. split; [reflexivity|]. split; discriminate.
Qed.

(** C1, amended, at work: the 2 x 2 table "A","B","C","D" goes into a
    document whose new table has its cells at 4, 6, 9 and 11. *)
Lemma insertTable_text_offsets_witness :
  insertTableToDocument (Demo.env Demo.normal) "doc-1" tt Demo.table2x2 []
  = (Ret None,
     [EvBatchUpdate "doc-1" [InsertTable 2 2];
      EvLog (LogBatchUpdateResponse (Some {| resp_DocumentId := "doc-1" |}));
      EvDocsGet "doc-1";
      EvBatchUpdate "doc-1"
        [InsertText "A" 5; InsertText "B" 8; InsertText "C" 12; InsertText "D" 15];
      EvLog (LogBatchUpdateResponse (Some {| resp_DocumentId := "doc-1" |}))]).
Proof.
  apply (proj1 (insertTable_text_offsets (Demo.env Demo.normal) "doc-1" tt
                  Demo.table2x2 [] {| entries := ["A"; "B"] |}
                  {| resp_DocumentId := "doc-1" |}
                  (Demo.documentAfter "doc-1" [EvBatchUpdate "doc-1" [InsertTable 2 2]])
                  {| Content :=
                       [Some Demo.sectionBreak;
                        Some (Demo.paragraph 1 2);
                        Some {| se_StartIndex := 2;
                                se_EndIndex := 14;
                                se_Table := Some (Demo.emptyTable 2 2 2) |};
                        Some (Demo.paragraph 14 15)] |}
                  [Some Demo.sectionBreak; Some (Demo.paragraph 1 2)]
                  [Some (Demo.paragraph 14 15)]
                  {| se_StartIndex := 2;
                     se_EndIndex := 14;
                     se_Table := Some (Demo.emptyTable 2 2 2) |}
                  (Demo.emptyTable 2 2 2)
                  [("A", 4); ("B", 6); ("C", 9); ("D", 11)]
                  ltac:(repeat constructor) eq_refl eq_refl eq_refl eq_refl eq_refl
                  ltac:(repeat constructor; discriminate) eq_refl
                  ltac:(repeat constructor; eexists; split; reflexivity) eq_refl)).
Defined.

(** ** Driver *)

(** C6 at work: the sample page holds a 2 x 2 table, an empty table and a
    ragged table.  The clear request and two of the three insertions fail,
    each failure is printed, and [main] returns. *)
Lemma main_fatal_and_logged_failures_witness :
  exists tr',
    main (Demo.env Demo.normal) [] = (Ret tt, tr') /\
    List.filter
      (fun ev => match ev with EvPrint (PrintError _) => true | _ => false end) tr'
    = [EvPrint (PrintError (ExternalError "400 Bad Request"));
       EvPrint (PrintError EmptyTable);
       EvPrint (PrintError (InvalidTable 2 1 2))].
Proof.
  eexists. split.
  - destruct (main_fatal_and_logged_failures (Demo.env Demo.normal) []
                (snd (getTables (Demo.env Demo.normal) []))) as [_ H].
    edestruct H as (_ & _ & H1); [reflexivity|].
    edestruct (H1 tt) as [_ H2]; [reflexivity|].
    edestruct H2 as [_ H3]; [reflexivity|].
    eapply H3; [lazy; reflexivity|].
    eapply InsertSteps_ok; [lazy; reflexivity|].
    eapply InsertSteps_failed; [lazy; reflexivity|].
    eapply InsertSteps_failed; [lazy; reflexivity|].
    apply InsertSteps_done.
  - reflexivity.
Defined.

(** * Further properties of the program *)

(** ** Which effects a computation can have *)

Lemma emitsOnly_ret {A} (P : Event -> Prop) (a : A) : emitsOnly P (ret a).
Proof. intros tr. exists []. simpl. now rewrite app_nil_r. Qed.

Lemma emitsOnly_panic {A} (P : Event -> Prop) (p : PanicValue) :
  emitsOnly P (@panic A p).
Proof. intros tr. exists []. simpl. now rewrite app_nil_r. Qed.

Lemma emitsOnly_call {A} (P : Event -> Prop) (ev : Event) (answer : Trace -> A) :
  P ev -> emitsOnly P (call ev answer).
Proof. intros H tr. exists [ev]. simpl. auto. Qed.

Lemma emitsOnly_log_Fatalf {A} (P : Event -> Prop) (d : Diag) :
  P (EvLog (LogFatal d)) -> emitsOnly P (@log_Fatalf A d).
Proof. intros H tr. exists [EvLog (LogFatal d)]. simpl. auto. Qed.

Lemma emitsOnly_bind {A B} (P : Event -> Prop) (m : M A) (k : A -> M B) :
  emitsOnly P m -> (forall a, emitsOnly P (k a)) -> emitsOnly P (bind m k).
Proof.
  intros Hm Hk tr. unfold bind.
  destruct (Hm tr) as (added & Heq & HP).
  destruct (m tr) as [[a|d|p] tr1]; simpl in Heq; subst tr1.
  - destruct (Hk a (tr ++ added)) as (added' & Heq' & HP').
    exists (added ++ added'). rewrite Heq', app_assoc. split; [reflexivity|].
    apply Forall_app. auto.
  - exists added. auto.
  - exists added. auto.
Qed.

Lemma emitsOnly_defer {A} (P : Event -> Prop) (d : M unit) (m : M A) :
  emitsOnly P d -> emitsOnly P m -> emitsOnly P (defer d m).
Proof.
  intros Hd Hm tr. unfold defer.
  destruct (Hm tr) as (added & Heq & HP).
  destruct (m tr) as [[a|x|p] tr1]; simpl in Heq; subst tr1; simpl.
  - destruct (Hd (tr ++ added)) as (added' & Heq' & HP').
    exists (added ++ added'). rewrite Heq', app_assoc. split; [reflexivity|].
    apply Forall_app. auto.
  - exists added. auto.
  - destruct (Hd (tr ++ added)) as (added' & Heq' & HP').
    exists (added ++ added'). rewrite Heq', app_assoc. split; [reflexivity|].
    apply Forall_app. auto.
Qed.

Lemma emitsOnly_deref {A} (P : Event -> Prop) (p : option A) : emitsOnly P (deref p).
Proof. destruct p; [apply emitsOnly_ret|apply emitsOnly_panic]. Qed.

Lemma emitsOnly_index {A} (P : Event -> Prop) (s : list A) (i : Z) :
  emitsOnly P (index s i).
Proof.
  unfold index. destruct ((i <? 0) || (Z.of_nat (List.length s) <=? i));
    [apply emitsOnly_panic|].
  destruct (nth_error s (Z.to_nat i)); [apply emitsOnly_ret|apply emitsOnly_panic].
Qed.

Lemma emitsOnly_forEach {A B} (P : Event -> Prop) (xs : list A) (f : A -> M B) :
  (forall x, emitsOnly P (f x)) -> emitsOnly P (forEach xs f).
Proof.
  intros Hf. induction xs as [|x xs IH]; simpl.
  - apply emitsOnly_ret.
  - apply emitsOnly_bind; [apply Hf|]. intros b.
    apply emitsOnly_bind; [exact IH|]. intros bs. apply emitsOnly_ret.
Qed.

Lemma emitsOnly_weaken {A} (P Q : Event -> Prop) (m : M A) :
  (forall ev, P ev -> Q ev) -> emitsOnly P m -> emitsOnly Q m.
Proof.
  intros HPQ Hm tr. destruct (Hm tr) as (added & Heq & HP).
  exists added. split; [exact Heq|]. eapply Forall_impl; eauto.
Qed.

Lemma emitsOnly_scanTables (P : Event -> Prop)
    (content : list (option StructuralElement)) (i idx : Z) :
  emitsOnly P (scanTables content i idx).
Proof.
  revert i idx. induction content as [|p content IH]; intros i idx; simpl.
  - apply emitsOnly_ret.
  - apply emitsOnly_bind; [apply emitsOnly_deref|]. intros elem. apply IH.
Qed.

Lemma emitsOnly_cellsLoop (P : Event -> Prop) (tbl : table) (rowIdx : Z)
    (cells : list (option TableCell)) (cellIdx : Z) (st : list Request * Z) :
  emitsOnly P (cellsLoop tbl rowIdx cells cellIdx st).
Proof.
  revert cellIdx st. induction cells as [|[cell|] cells IH]; intros cellIdx st; simpl.
  - apply emitsOnly_ret.
  - apply emitsOnly_bind; [apply emitsOnly_index|]. intros r.
    apply emitsOnly_bind; [apply emitsOnly_index|]. intros text.
    destruct st as [requests totalInserted]. apply IH.
  - apply IH.
Qed.

Lemma emitsOnly_rowsLoop (P : Event -> Prop) (tbl : table)
    (rows : list (option TableRow)) (rowIdx : Z) (st : list Request * Z) :
  emitsOnly P (rowsLoop tbl rows rowIdx st).
Proof.
  revert rowIdx st. induction rows as [|[r|] rows IH]; intros rowIdx st; simpl.
  - apply emitsOnly_ret.
  - apply emitsOnly_bind; [apply emitsOnly_cellsLoop|]. intros st'. apply IH.
  - apply IH.
Qed.

(** Splits a computation into its binds, branches and primitive effects;
    what is left are the conditions on the effects themselves. *)
Ltac emits_only :=
  repeat first
    [ apply emitsOnly_ret
    | apply emitsOnly_panic
    | apply emitsOnly_deref
    | apply emitsOnly_index
    | apply emitsOnly_scanTables
    | apply emitsOnly_rowsLoop
    | apply emitsOnly_bind; [|intros ?]
    | apply emitsOnly_defer
    | apply emitsOnly_forEach; intros ?
    | apply emitsOnly_call
    | apply emitsOnly_log_Fatalf
    | match goal with
      | |- emitsOnly _ (match ?x with _ => _ end) => destruct x
      end ].

Section Coverage.

Context {Config Token Client Service Selection : Type}.
Variable E : Env Config Token Client Service Selection.

(** ** Table Scraper *)

(** X1: every effect of [getTables] is the fetch of the page URL, the
    parse of the response body, the close of that body, or a log line with
    the HTML of a table element.  It prints nothing, fetches no other URL,
    touches no file and reaches neither the authorization server nor the
    Docs API. *)
Theorem getTables_stays_on_the_page :
  emitsOnly scraperEffect (getTables E).
Proof.
  unfold getTables, log_Println, emit.
  emits_only; unfold scraperEffect; eauto 6.
Qed.

(** X2: once the transport has delivered a response, its body is closed
    exactly once, as the last effect of [getTables], on every path: wrong
    status, unparseable body, or success.  When the transport fails there
    is no body and nothing is closed. *)
Theorem getTables_closes_the_body (tr : Trace) :
  match http_Get E tr CONFLUENCE_URL with
  | Ok _ =>
      exists mid,
        snd (getTables E tr) = tr ++ EvHttpGet CONFLUENCE_URL :: mid ++ [EvCloseBody] /\
        ~ In EvCloseBody mid
  | Err _ => snd (getTables E tr) = tr ++ [EvHttpGet CONFLUENCE_URL]
  end.
Proof.
  destruct (http_Get E tr CONFLUENCE_URL) as [response|e] eqn:Hget.
  - rewrite (getTables_fetched E tr response Hget).
    destruct (negb (StatusCode response =? http_StatusOK)).
    + exists []. simpl. auto.
    + destruct (goquery_NewDocumentFromReader E (tr ++ [EvHttpGet CONFLUENCE_URL])
                  (Response_Body response)) as [document|e].
      * exists (EvParseHtml
                  :: List.map (fun t => EvLog (LogTableHTML (fst (goquery_Html E t))))
                       (goquery_Find E document ".confluenceTable")).
        simpl. split; [reflexivity|].
        intros [H|H]; [discriminate|].
        apply in_map_iff in H. destruct H as (t & Ht & _). discriminate.
      * exists [EvParseHtml]. simpl. split; [reflexivity|].
        intros [H|[]]. discriminate.
  - now rewrite (getTables_transport_failed E tr e Hget).
Qed.


(** ** Credential Manager *)

(** The token file cannot be used exactly when it cannot be opened or
    does not decode; [tokenFromFile] closes the file handle on both paths
    and does not try to decode a file it could not open. *)
Lemma tokenFromFile_run (file : string) (tr : Trace) :
  tokenFromFile E file tr
  = match os_Open E tr file with
    | Some e => (Ret (Err e), tr ++ [EvOpen file; EvCloseFile file])
    | None =>
        (Ret (json_Decode E (tr ++ [EvOpen file]) file),
         tr ++ [EvOpen file; EvJsonDecode file; EvCloseFile file])
    end.
Proof.
  unfold tokenFromFile, bind, call, defer, emit, ret. simpl.
  destruct (os_Open E tr file); simpl; now rewrite <- !app_assoc.
Qed.

(** X4: with a token file that opens and decodes, the client is built from
    the cached token and nothing else happens: no prompt, no read from the
    console, no exchange with the authorization server, no write. *)
Theorem getClient_uses_cached_token (config : Config) (tr : Trace) (tok : Token) :
  os_Open E tr TOKEN_PATH = None ->
  json_Decode E (tr ++ [EvOpen TOKEN_PATH]) TOKEN_PATH = Ok tok ->
  getClient E config tr
  = (Ret (oauth2_Client E config tok),
     tr ++ [EvOpen TOKEN_PATH; EvJsonDecode TOKEN_PATH; EvCloseFile TOKEN_PATH]).
Proof.
  intros Hopen Hdecode. unfold getClient, bind at 1.
  rewrite tokenFromFile_run, Hopen, Hdecode. reflexivity.
Qed.

(** X5: a token file that is missing and a token file that does not decode
    are treated alike: the user is prompted, the code read from the console
    is exchanged, the new token is saved to the token file, and the client
    is built from the new token. *)
Theorem getClient_obtains_and_saves_a_new_token (config : Config) (tr tr0 : Trace)
    (e0 : error) (authCode : string) (tok : Token) :
  tokenFromFile E TOKEN_PATH tr = (Ret (Err e0), tr0) ->
  let trP := tr0 ++ [EvPrint (PrintAuthPrompt (oauth2_AuthCodeURL E config))] in
  fmt_Scan E trP = Ok authCode ->
  oauth2_Exchange E (trP ++ [EvScan]) config authCode = Ok tok ->
  os_OpenFile E
    (trP ++ [EvScan; EvExchange authCode; EvPrint (PrintSavingCredential TOKEN_PATH)])
    TOKEN_PATH = None ->
  getClient E config tr
  = (Ret (oauth2_Client E config tok),
     trP ++ [EvScan; EvExchange authCode;
             EvPrint (PrintSavingCredential TOKEN_PATH);
             EvOpenFile TOKEN_PATH; EvJsonEncode TOKEN_PATH; EvCloseFile TOKEN_PATH]).
Proof.
  intros Hfile trP Hscan Hexchange Hopen.
  unfold getClient, bind at 1. rewrite Hfile.
  unfold bind at 1, getTokenFromWeb, bind at 1, fmt_Printf at 1, emit at 1, call at 1.
  fold trP. unfold bind at 1, call at 1. rewrite Hscan.
  unfold bind at 1, call at 1. rewrite Hexchange. unfold ret at 1.
  unfold bind at 1, saveToken, bind at 1, fmt_Printf at 1, emit at 1, call at 1.
  unfold bind at 1, call at 1.
  rewrite <- !app_assoc. simpl app. rewrite Hopen.
  unfold defer, emit, call, ret. simpl. rewrite <- !app_assoc. reflexivity.
Qed.

(** X6: when no cached token can be used, each failure of the interactive
    flow ends the process at once: a failed read of the code before any
    exchange, a failed exchange before anything is saved, and a token file
    that cannot be opened for writing before anything is encoded (the
    token just obtained is lost). *)
Theorem getClient_exits_when_the_flow_fails (config : Config) (tr tr0 : Trace)
    (e0 : error) :
  tokenFromFile E TOKEN_PATH tr = (Ret (Err e0), tr0) ->
  let trP := tr0 ++ [EvPrint (PrintAuthPrompt (oauth2_AuthCodeURL E config))] in
  (forall e,
      fmt_Scan E trP = Err e ->
      getClient E config tr
      = (Exit (UnableToReadAuthorizationCode e),
         trP ++ [EvScan; EvLog (LogFatal (UnableToReadAuthorizationCode e))])) /\
  (forall authCode e,
      fmt_Scan E trP = Ok authCode ->
      oauth2_Exchange E (trP ++ [EvScan]) config authCode = Err e ->
      getClient E config tr
      = (Exit (UnableToRetrieveTokenFromWeb e),
         trP ++ [EvScan; EvExchange authCode;
                 EvLog (LogFatal (UnableToRetrieveTokenFromWeb e))])) /\
  (forall authCode tok e,
      fmt_Scan E trP = Ok authCode ->
      oauth2_Exchange E (trP ++ [EvScan]) config authCode = Ok tok ->
      os_OpenFile E
        (trP ++ [EvScan; EvExchange authCode; EvPrint (PrintSavingCredential TOKEN_PATH)])
        TOKEN_PATH = Some e ->
      getClient E config tr
      = (Exit (UnableToCacheOAuthToken e),
         trP ++ [EvScan; EvExchange authCode;
                 EvPrint (PrintSavingCredential TOKEN_PATH);
                 EvOpenFile TOKEN_PATH;
                 EvLog (LogFatal (UnableToCacheOAuthToken e))])).
Proof.
  intros Hfile trP. split; [|split].
  - intros e Hscan.
    unfold getClient, bind at 1. rewrite Hfile.
    unfold bind at 1, getTokenFromWeb, bind at 1, fmt_Printf at 1, emit at 1, call at 1.
    fold trP. unfold bind at 1, call at 1. rewrite Hscan.
    unfold log_Fatalf. rewrite <- !app_assoc. reflexivity.
  - intros authCode e Hscan Hexchange.
    unfold getClient, bind at 1. rewrite Hfile.
    unfold bind at 1, getTokenFromWeb, bind at 1, fmt_Printf at 1, emit at 1, call at 1.
    fold trP. unfold bind at 1, call at 1. rewrite Hscan.
    unfold bind at 1, call at 1. rewrite Hexchange.
    unfold log_Fatalf. rewrite <- !app_assoc. reflexivity.
  - intros authCode tok e Hscan Hexchange Hopen.
    unfold getClient, bind at 1. rewrite Hfile.
    unfold bind at 1, getTokenFromWeb, bind at 1, fmt_Printf at 1, emit at 1, call at 1.
    fold trP. unfold bind at 1, call at 1. rewrite Hscan.
    unfold bind at 1, call at 1. rewrite Hexchange. unfold ret at 1.
    unfold bind at 1, saveToken, bind at 1, fmt_Printf at 1, emit at 1, call at 1.
    unfold bind at 1, call at 1.
    rewrite <- !app_assoc. simpl app. rewrite Hopen.
    unfold defer, log_Fatalf. simpl. rewrite <- !app_assoc. reflexivity.
Qed.


Lemma getClient_outcomes (config : Config) (tr : Trace) :
  match fst (getClient E config tr) with
  | Ret _ => True
  | Exit d => credentialDiag d
  | Panicked _ => False
  end.
Proof.
  unfold getClient, bind at 1. rewrite tokenFromFile_run.
  assert (forall tr1,
             match fst ((tok <- getTokenFromWeb E config ;;
                         saveToken E TOKEN_PATH tok ;;;
                         ret (oauth2_Client E config tok))%go tr1) with
             | Ret _ => True
             | Exit d => credentialDiag d
             | Panicked _ => False
             end) as Hweb.
  { intros tr1.
    unfold getTokenFromWeb, saveToken, bind, call, defer, emit, fmt_Printf,
      log_Fatalf, ret. simpl.
    destruct (fmt_Scan E _) as [authCode|e]; simpl.
    - destruct (oauth2_Exchange E _ config authCode) as [tok|e]; simpl.
      + destruct (os_OpenFile E _ TOKEN_PATH) as [e|]; simpl; [|exact I].
        exists e. auto.
      + exists e. auto.
    - exists e. auto. }
  destruct (os_Open E tr TOKEN_PATH) as [e|].
  - apply Hweb.
  - destruct (json_Decode E (tr ++ [EvOpen TOKEN_PATH]) TOKEN_PATH) as [tok|e].
    + exact I.
    + apply Hweb.
Qed.

Lemma getService_with_config (tr : Trace) (b : string) (config : Config) :
  os_ReadFile E tr CREDENTIALS_PATH = Ok b ->
  google_ConfigFromJSON E b "https://www.googleapis.com/auth/documents" = Ok config ->
  getService E tr
  = match getClient E config (tr ++ [EvReadFile CREDENTIALS_PATH]) with
    | (Ret client, tr') =>
        (Ret match docs_NewService E client with
             | Ok srv => Ok srv
             | Err e => Err (UnableToRetrieveDocsClient e)
             end, tr')
    | (Exit d, tr') => (Exit d, tr')
    | (Panicked p, tr') => (Panicked p, tr')
    end.
Proof.
  intros Hread Hconfig. unfold getService, bind at 1, call at 1.
  rewrite Hread, Hconfig. unfold bind at 1.
  destruct (getClient E config (tr ++ [EvReadFile CREDENTIALS_PATH])) as [[client|d|p] tr'];
    [|reflexivity|reflexivity].
  destruct (docs_NewService E client); reflexivity.
Qed.

Lemma getClient_exit_iff (config : Config) (tr tr0 : Trace) (e0 : error) (d : Diag) :
  tokenFromFile E TOKEN_PATH tr = (Ret (Err e0), tr0) ->
  fst (getClient E config tr) = Exit d <-> flowFails E config tr0 d.
Proof.
  intros Hfile. unfold getClient, bind at 1. rewrite Hfile.
  unfold flowFails, getTokenFromWeb, saveToken, bind, call, defer, emit, fmt_Printf,
    log_Fatalf, ret.
  cbv zeta. simpl fst. simpl snd.
  set (trP := tr0 ++ [EvPrint (PrintAuthPrompt (oauth2_AuthCodeURL E config))]).
  destruct (fmt_Scan E trP) as [authCode|e] eqn:Hscan; simpl.
  - destruct (oauth2_Exchange E (trP ++ [EvScan]) config authCode) as [tok|e] eqn:Hex; simpl.
    + rewrite <- !app_assoc. cbn [app].
      destruct (os_OpenFile E
                  (trP ++ [EvScan; EvExchange authCode;
                           EvPrint (PrintSavingCredential TOKEN_PATH)])
                  TOKEN_PATH) as [e|] eqn:Hopen; simpl.
      * split.
        -- intros H. injection H as <-. right. right.
           exists authCode, tok, e. auto.
        -- intros H. decompose [ex and or] H; subst; congruence.
      * split; [discriminate|].
        intros H. decompose [ex and or] H; subst; congruence.
    + split.
      * intros H. injection H as <-. right. left. exists authCode, e. auto.
      * intros H. decompose [ex and or] H; subst; congruence.
  - split.
    + intros H. injection H as <-. left. exists e. auto.
    + intros H. decompose [ex and or] H; subst; congruence.
Qed.

(** X7: [getService] never panics.  It returns an error exactly when the
    credentials file cannot be read, when it cannot be parsed, or when the
    client was obtained and the Docs service cannot be constructed from it,
    each time with the matching wrapped error.  It ends the process exactly
    when the credentials parse, no cached token can be loaded, and the read
    of the code, its exchange, or the opening of the token file for writing
    fails, with the diagnostic of that step. *)
Theorem getService_outcomes (tr : Trace) :
  let scope := "https://www.googleapis.com/auth/documents" in
  let tr1 := tr ++ [EvReadFile CREDENTIALS_PATH] in
  (forall p, fst (getService E tr) <> Panicked p) /\
  (forall e,
      fst (getService E tr) = Ret (Err e) <->
      ((exists cause,
           os_ReadFile E tr CREDENTIALS_PATH = Err cause /\ e = UnableToReadSecret cause) \/
       (exists b cause,
           os_ReadFile E tr CREDENTIALS_PATH = Ok b /\
           google_ConfigFromJSON E b scope = Err cause /\
           e = UnableToParseSecret cause) \/
       (exists b config client cause,
           os_ReadFile E tr CREDENTIALS_PATH = Ok b /\
           google_ConfigFromJSON E b scope = Ok config /\
           fst (getClient E config tr1) = Ret client /\
           docs_NewService E client = Err cause /\
           e = UnableToRetrieveDocsClient cause))) /\
  (forall d,
      fst (getService E tr) = Exit d <->
      exists b config e0 tr0,
        os_ReadFile E tr CREDENTIALS_PATH = Ok b /\
        google_ConfigFromJSON E b scope = Ok config /\
        tokenFromFile E TOKEN_PATH tr1 = (Ret (Err e0), tr0) /\
        flowFails E config tr0 d).
Proof.
  intros scope tr1.
  destruct (os_ReadFile E tr CREDENTIALS_PATH) as [b|cause] eqn:Hread.
  2:{ assert (getService E tr = (Ret (Err (UnableToReadSecret cause)), tr1)) as ->.
      { unfold getService, bind at 1, call at 1. now rewrite Hread. }
      simpl. split; [discriminate|]. split.
      - intros e. split.
        + intros H. injection H as <-. left. eauto.
        + intros H. decompose [ex and or] H; subst; congruence.
      - intros d. split; [discriminate|].
        intros H. decompose [ex and or] H; subst; congruence. }
  destruct (google_ConfigFromJSON E b scope) as [config|cause] eqn:Hconfig.
  2:{ assert (getService E tr = (Ret (Err (UnableToParseSecret cause)), tr1)) as ->.
      { unfold getService, bind at 1, call at 1. rewrite Hread. fold scope.
        now rewrite Hconfig. }
      simpl. split; [discriminate|]. split.
      - intros e. split.
        + intros H. injection H as <-. right. left. eauto.
        + intros H. decompose [ex and or] H; subst; congruence.
      - intros d. split; [discriminate|].
        intros H. decompose [ex and or] H; subst; congruence. }
  rewrite (getService_with_config tr b config Hread Hconfig). fold tr1.
  pose proof (getClient_outcomes config tr1) as Hout.
  pose proof (fun e0 tr0 d => getClient_exit_iff config tr1 tr0 e0 d) as Hexit.
  pose proof (tokenFromFile_run TOKEN_PATH tr1) as Hfile.
  destruct (getClient E config tr1) as [[client|d0|p0] tr'] eqn:Hclient;
    simpl fst in *.
  - split; [discriminate|]. split.
    + intros e. split.
      * intros H. right. right.
        destruct (docs_NewService E client) as [srv|cause] eqn:Hnew; [discriminate|].
        injection H as <-. exists b, config, client, cause.
        rewrite Hclient. auto.
      * intros [(c & H1 & H2)|[(b' & c & H1 & H2 & H3)
                              |(b' & cf & cl & c & H1 & H2 & H3 & H4 & H5)]];
          [congruence|congruence|].
        assert (cf = config) by congruence. subst cf.
        rewrite Hclient in H3. simpl in H3.
        assert (cl = client) by congruence. subst cl e.
        now rewrite H4.
    + intros d. split; [discriminate|].
      intros (b' & cf & e0 & tr0 & H1 & H2 & H3 & H4).
      assert (cf = config) by congruence. subst cf.
      apply (proj2 (Hexit e0 tr0 d H3)) in H4. discriminate.
  - split; [discriminate|]. split.
    + intros e. split; [discriminate|].
      intros [(c & H1 & H2)|[(b' & c & H1 & H2 & H3)
                            |(b' & cf & cl & c & H1 & H2 & H3 & H4 & H5)]];
        [congruence|congruence|].
      assert (cf = config) by congruence. subst cf.
      rewrite Hclient in H3. discriminate.
    + intros d. split.
      * intros H. injection H as <-.
        destruct (os_Open E tr1 TOKEN_PATH) as [e0|] eqn:Hopen.
        -- exists b, config, e0, (tr1 ++ [EvOpen TOKEN_PATH; EvCloseFile TOKEN_PATH]).
           repeat split; auto. now apply (Hexit e0 _ d0 Hfile).
        -- destruct (json_Decode E (tr1 ++ [EvOpen TOKEN_PATH]) TOKEN_PATH)
             as [tok|e0] eqn:Hdecode.
           ++ exfalso. revert Hclient. unfold getClient, bind at 1.
              rewrite Hfile. discriminate.
           ++ exists b, config, e0,
                (tr1 ++ [EvOpen TOKEN_PATH; EvJsonDecode TOKEN_PATH; EvCloseFile TOKEN_PATH]).
              repeat split; auto. now apply (Hexit e0 _ d0 Hfile).
      * intros (b' & cf & e0 & tr0 & H1 & H2 & H3 & H4).
        assert (cf = config) by congruence. subst cf.
        apply (proj2 (Hexit e0 tr0 d H3)) in H4. now injection H4 as <-.
  - contradiction.
Qed.

(** X8: unreadable or unparseable credentials are reported before the token
    file is touched and before the user is asked anything: the only effect
    is the read of the credentials file. *)
Theorem getService_checks_credentials_first (tr : Trace) :
  (forall e,
      os_ReadFile E tr CREDENTIALS_PATH = Err e ->
      getService E tr
      = (Ret (Err (UnableToReadSecret e)), tr ++ [EvReadFile CREDENTIALS_PATH])) /\
  (forall b e,
      os_ReadFile E tr CREDENTIALS_PATH = Ok b ->
      google_ConfigFromJSON E b "https://www.googleapis.com/auth/documents" = Err e ->
      getService E tr
      = (Ret (Err (UnableToParseSecret e)), tr ++ [EvReadFile CREDENTIALS_PATH])).
Proof.
  split.
  - intros e Hread. unfold getService, bind at 1, call at 1. now rewrite Hread.
  - intros b e Hread Hconfig. unfold getService, bind at 1, call at 1.
    now rewrite Hread, Hconfig.
Qed.

(** X9: every effect of [getService] is one of the credential manager's:
    the read of the credentials file, the token file opened, decoded,
    encoded or closed, the prompt, the read of the code, its exchange, the
    line that announces the save, or one of the three fatal diagnostics.
    It fetches no URL, touches no other file and never calls the Docs
    API. *)
Theorem getService_does_not_touch_documents :
  emitsOnly credentialEffect (getService E).
Proof.
  unfold getService, getClient, tokenFromFile, getTokenFromWeb, saveToken,
    fmt_Printf, emit.
  emits_only; unfold credentialEffect; eauto 20.
Qed.

(** ** Document Locator *)

(** X10: with a readable id file the document is fetched by the saved id and
    the answer of the fetch, also an error, is returned as it is: there is
    no fall-back to creating a document, and the id file is not written.
    Without a readable id file, a failed create call is returned as the
    error and the id file is not written either. *)
Theorem getDocument_does_not_write_without_a_new_document (srv : Service) (tr : Trace) :
  let tr1 := tr ++ [EvReadFile DOCUMENT_ID_PATH] in
  (forall id,
      os_ReadFile E tr DOCUMENT_ID_PATH = Ok id ->
      getDocument E srv tr = (Ret (docs_Get E srv tr1 id), tr1 ++ [EvDocsGet id])) /\
  (forall e e',
      os_ReadFile E tr DOCUMENT_ID_PATH = Err e ->
      docs_Create E srv tr1 "HFLabsTestTaskTableDocument" = Err e' ->
      getDocument E srv tr
      = (Ret (Err e'), tr1 ++ [EvDocsCreate "HFLabsTestTaskTableDocument"])).
Proof.
  intros tr1. split.
  - intros id Hread. unfold getDocument, bind at 1, call at 1. now rewrite Hread.
  - intros e e' Hread Hcreate. unfold getDocument, bind at 1, call at 1. rewrite Hread.
    unfold bind at 1, call at 1. fold tr1. now rewrite Hcreate.
Qed.

(** X11: every effect of [getDocument] is the read of the document id
    file, the fetch of a document by id, the create call with the fixed
    title, or the write of the document id file.  It sends no batch update
    and opens, reads or writes no other file. *)
Theorem getDocument_does_not_mutate :
  forall srv, emitsOnly locatorEffect (getDocument E srv).
Proof.
  intros srv. unfold getDocument.
  emits_only; unfold locatorEffect; eauto 6.
Qed.


(** ** Document Writer: clear *)

(** X12: when the document cannot be fetched, or is answered without a body,
    the clear operation sends no request: the fetch error is returned, and
    a missing body is a nil dereference. *)
Theorem clearDocument_sends_nothing_without_a_body (docId : string) (srv : Service)
    (tr : Trace) :
  (forall e,
      docs_Get E srv tr docId = Err e ->
      clearDocument E docId srv tr = (Ret (Some e), tr ++ [EvDocsGet docId])) /\
  (forall doc,
      docs_Get E srv tr docId = Ok doc ->
      doc_Body doc = None ->
      clearDocument E docId srv tr
      = (Panicked NilPointerDereference, tr ++ [EvDocsGet docId])).
Proof.
  split.
  - intros e Hget. now apply clearDocument_get_failed.
  - intros doc Hget Hbody.
    unfold clearDocument, bind at 1, call at 1. rewrite Hget, Hbody. reflexivity.
Qed.

Lemma clearDocument_emits (docId : string) (srv : Service) :
  emitsOnly (writerEffect docId) (clearDocument E docId srv).
Proof.
  unfold clearDocument, batchUpdate, log_Println, emit.
  emits_only; unfold writerEffect; eauto.
Qed.

Lemma insertTableToDocument_emits (docId : string) (srv : Service) (tbl : table) :
  emitsOnly (writerEffect docId) (insertTableToDocument E docId srv tbl).
Proof.
  unfold insertTableToDocument, batchUpdate, log_Println, emit.
  emits_only; unfold writerEffect; eauto.
Qed.

(** X13: the document writer is confined to the document it is given: the
    clear and the insert operation only read that document, send batch
    updates to that document and write log lines.  They touch no file,
    print nothing and reach no other document. *)
Theorem writer_is_confined_to_its_document (docId : string) (srv : Service)
    (tbl : table) :
  emitsOnly (writerEffect docId) (clearDocument E docId srv) /\
  emitsOnly (writerEffect docId) (insertTableToDocument E docId srv tbl).
Proof.
  split; [apply clearDocument_emits|apply insertTableToDocument_emits].
Qed.

(** X14: neither operation of the document writer ever ends the process,
    whatever the service answers: every failure is a returned error or a
    run-time panic. *)
Theorem writer_never_exits (docId : string) (srv : Service) (tbl : table) :
  neverExits (clearDocument E docId srv) /\
  neverExits (insertTableToDocument E docId srv tbl).
Proof.
  split; [apply neverExits_clearDocument|apply neverExits_insertTableToDocument].
Qed.

(** ** Document Writer: insert table *)

Lemma checkRows_first_mismatch (colCnt i : Z) (pre post : list row) (r : row) :
  Forall (fun x => len (entries x) = colCnt) pre ->
  len (entries r) <> colCnt ->
  checkRows colCnt i (pre ++ r :: post)
  = Some (InvalidTable colCnt (len (entries r)) (i + len pre + 1)).
Proof.
  intros Hpre Hr. revert i. induction Hpre as [|x pre Hx _ IH]; intros i; simpl.
  - apply Z.eqb_neq in Hr. rewrite Hr. simpl. unfold len. simpl.
    do 2 f_equal. lia.
  - rewrite Hx, Z.eqb_refl. simpl. rewrite IH. unfold len.
    cbn [List.length]. do 2 f_equal. lia.
Qed.

(** X15: the validation error names the first offending row: for rows
    [row0 :: pre ++ r :: post] where the rows of [pre] are as long as
    [row0] and [r] is not, the error carries the cell count of [row0], the
    cell count of [r], and the 1-based number of [r]. *)
Theorem insertTable_reports_the_first_offending_row (docId : string) (srv : Service)
    (tbl : table) (tr : Trace) (row0 r : row) (pre post : list row) :
  contents tbl = row0 :: pre ++ r :: post ->
  Forall (fun x => List.length (entries x) = List.length (entries row0)) pre ->
  List.length (entries r) <> List.length (entries row0) ->
  insertTableToDocument E docId srv tbl tr
  = (Ret (Some (InvalidTable (len (entries row0)) (len (entries r)) (len pre + 2))), tr).
Proof.
  intros Hc Hpre Hr.
  unfold insertTableToDocument. rewrite Hc.
  replace (len (row0 :: pre ++ r :: post) =? 0) with false
    by (symmetry; apply Z.eqb_neq; unfold len; simpl; lia).
  unfold bind at 1. rewrite index_head.
  change (row0 :: pre ++ r :: post) with ((row0 :: pre) ++ r :: post).
  rewrite checkRows_first_mismatch.
  - unfold ret, len. cbn [List.length]. do 4 f_equal. lia.
  - constructor; [reflexivity|].
    eapply Forall_impl; [|exact Hpre]. intros x Hx. unfold len. now rewrite Hx.
  - unfold len. lia.
Qed.

(** X16: for a validated table the first effect is one batch update holding
    the single request to insert a table with as many rows as the source
    table and as many columns as its first row.  The operation stops at the
    first call that fails: a failed insert-table request is returned
    without reading the document back, and a failed read is returned
    without sending any text. *)
Theorem insertTable_stops_at_the_first_failed_call (docId : string) (srv : Service)
    (tbl : table) (tr : Trace) (row0 : row) :
  rectangular tbl ->
  hd_error (contents tbl) = Some row0 ->
  let request := InsertTable (len (contents tbl)) (len (entries row0)) in
  (forall e,
      docs_BatchUpdate E srv tr docId [request] = Err e ->
      insertTableToDocument E docId srv tbl tr
      = (Ret (Some e),
         tr ++ [EvBatchUpdate docId [request]; EvLog (LogBatchUpdateResponse None)])) /\
  (forall resp e,
      docs_BatchUpdate E srv tr docId [request] = Ok resp ->
      let tr1 := tr ++ [EvBatchUpdate docId [request];
                        EvLog (LogBatchUpdateResponse (Some resp))] in
      docs_Get E srv tr1 docId = Err e ->
      insertTableToDocument E docId srv tbl tr
      = (Ret (Some e), tr1 ++ [EvDocsGet docId])).
Proof.
  intros Hrect Hhd request.
  destruct (insertTable_validated E docId srv tbl tr Hrect) as (row0' & rest & Hc & Heq).
  rewrite Hc in Hhd. injection Hhd as ->.
  cbv zeta in Heq. fold request in Heq. split.
  - intros e Hupdate. rewrite Heq, Hupdate. reflexivity.
  - intros resp e Hupdate tr1 Hget. rewrite Heq, Hupdate. simpl response_of.
    fold tr1. now rewrite Hget.
Qed.


(** *** The insert-text loop: when it panics, what it sends *)

Lemma placements_app_Some (tbl : table) (a b : list (Z * Z * TableCell))
    (pa pb : list (string * Z)) :
  placements tbl a = Some pa ->
  placements tbl b = Some pb ->
  placements tbl (a ++ b) = Some (pa ++ pb).
Proof.
  revert pa. induction a as [|[[r c] cell] a IH]; intros pa Ha Hb; simpl in *.
  - injection Ha as <-. exact Hb.
  - destruct (sourceText tbl r c) as [text|]; [|discriminate].
    destruct (placements tbl a) as [pa'|]; [|discriminate].
    injection Ha as <-. now rewrite (IH pa' eq_refl Hb).
Qed.

Lemma placements_length (tbl : table) (cells : list (Z * Z * TableCell))
    (pl : list (string * Z)) :
  placements tbl cells = Some pl -> List.length pl = List.length cells.
Proof.
  revert pl. induction cells as [|[[r c] cell] cells IH]; intros pl H; simpl in *.
  - now injection H as <-.
  - destruct (sourceText tbl r c) as [text|]; [|discriminate].
    destruct (placements tbl cells) as [pl'|]; [|discriminate].
    injection H as <-. simpl. now rewrite (IH pl' eq_refl).
Qed.

(** [placements] fails exactly when some cell has no source text. *)
Lemma placements_None_iff (tbl : table) (cells : list (Z * Z * TableCell)) :
  placements tbl cells = None
  <-> exists r c cell, In (r, c, cell) cells /\ sourceText tbl r c = None.
Proof.
  induction cells as [|[[r c] cell] cells IH]; simpl.
  - split; [discriminate|]. intros (r & c & cell & [] & _).
  - destruct (sourceText tbl r c) as [text|] eqn:Htext.
    + destruct (placements tbl cells) as [pl|] eqn:Hp.
      * split; [discriminate|].
        intros (r' & c' & cell' & [Heq|Hin] & Hnone).
        -- injection Heq as <- <- <-. congruence.
        -- assert (Some pl = None) as H by (apply IH; eauto). discriminate.
      * split; [|reflexivity]. intros _.
        destruct IH as [IH' _].
        destruct (IH' eq_refl) as (r' & c' & cell' & Hin & Hnone). eauto 8.
    + split; [|reflexivity]. intros _. exists r, c, cell. auto.
Qed.

(** Reading a source text that does not exist panics. *)
Lemma sourceText_missing_panics {B} (tbl : table) (rowIdx cellIdx : Z)
    (k : string -> M B) (tr : Trace) :
  0 <= cellIdx ->
  sourceText tbl rowIdx cellIdx = None ->
  exists i n,
    (r <- index (contents tbl) rowIdx ;;
     text <- index (entries r) cellIdx ;;
     k text)%go tr = (Panicked (IndexOutOfRange i n), tr).
Proof.
  intros Hc H. unfold sourceText in H. unfold bind at 1, index at 1.
  destruct ((rowIdx <? 0) || (Z.of_nat (List.length (contents tbl)) <=? rowIdx)) eqn:Hrow.
  - unfold panic. simpl. do 2 eexists. reflexivity.
  - apply orb_false_iff in Hrow. destruct Hrow as [Hneg Hlen]. rewrite Hneg in H.
    replace (cellIdx <? 0) with false in H by (symmetry; apply Z.ltb_ge; lia).
    simpl in H.
    destruct (nth_error (contents tbl) (Z.to_nat rowIdx)) as [r|].
    + unfold ret at 1. unfold bind at 1, index at 1.
      replace (cellIdx <? 0) with false by (symmetry; apply Z.ltb_ge; lia).
      simpl.
      destruct (Z.of_nat (List.length (entries r)) <=? cellIdx).
      * unfold panic. simpl. do 2 eexists. reflexivity.
      * rewrite H. unfold panic. simpl. do 2 eexists. reflexivity.
    + unfold panic. simpl. do 2 eexists. reflexivity.
Qed.

Lemma cellsLoop_returns (tbl : table) (rowIdx : Z) (cells : list (option TableCell))
    (cellIdx : Z) (pl : list (string * Z)) (st : list Request * Z) (tr : Trace) :
  placements tbl (cellsFrom rowIdx cellIdx cells) = Some pl ->
  exists st', cellsLoop tbl rowIdx cells cellIdx st tr = (Ret st', tr).
Proof.
  revert cellIdx pl st. induction cells as [|[cell|] cells IH]; intros cellIdx pl st H.
  - eexists. reflexivity.
  - unfold cellsFrom in H. simpl in H. fold (cellsFrom rowIdx (cellIdx + 1) cells) in H.
    destruct (sourceText tbl rowIdx cellIdx) as [text|] eqn:Htext; [|discriminate].
    destruct (placements tbl (cellsFrom rowIdx (cellIdx + 1) cells)) as [pl'|] eqn:Hrest;
      [|discriminate].
    cbn [cellsLoop].
    rewrite (sourceText_index tbl rowIdx cellIdx text _ tr Htext).
    destruct st as [requests totalInserted]. eapply IH. exact Hrest.
  - unfold cellsFrom in H. simpl in H. fold (cellsFrom rowIdx (cellIdx + 1) cells) in H.
    cbn [cellsLoop]. eapply IH. exact H.
Qed.

Lemma cellsLoop_panics (tbl : table) (rowIdx : Z) (cells : list (option TableCell))
    (cellIdx : Z) (st : list Request * Z) (tr : Trace) :
  0 <= cellIdx ->
  placements tbl (cellsFrom rowIdx cellIdx cells) = None ->
  exists i n,
    cellsLoop tbl rowIdx cells cellIdx st tr = (Panicked (IndexOutOfRange i n), tr).
Proof.
  revert cellIdx st. induction cells as [|[cell|] cells IH]; intros cellIdx st Hc H.
  - discriminate.
  - unfold cellsFrom in H. simpl in H. fold (cellsFrom rowIdx (cellIdx + 1) cells) in H.
    cbn [cellsLoop].
    destruct (sourceText tbl rowIdx cellIdx) as [text|] eqn:Htext.
    + rewrite (sourceText_index tbl rowIdx cellIdx text _ tr Htext).
      destruct st as [requests totalInserted].
      apply IH; [lia|].
      destruct (placements tbl (cellsFrom rowIdx (cellIdx + 1) cells)); [discriminate|].
      reflexivity.
    + now apply sourceText_missing_panics.
  - unfold cellsFrom in H. simpl in H. fold (cellsFrom rowIdx (cellIdx + 1) cells) in H.
    cbn [cellsLoop]. apply IH; [lia|exact H].
Qed.

Lemma rowsLoop_panics (tbl : table) (rows : list (option TableRow)) (rowIdx : Z)
    (st : list Request * Z) (tr : Trace) :
  placements tbl (rowsFrom rowIdx rows) = None ->
  exists i n,
    rowsLoop tbl rows rowIdx st tr = (Panicked (IndexOutOfRange i n), tr).
Proof.
  revert rowIdx st. induction rows as [|[r|] rows IH]; intros rowIdx st H.
  - discriminate.
  - unfold rowsFrom in H. simpl in H. fold (rowsFrom (rowIdx + 1) rows) in H.
    cbn [rowsLoop]. unfold bind at 1.
    destruct (placements tbl (cellsFrom rowIdx 0 (TableCells r))) as [pa|] eqn:Ha.
    + destruct (cellsLoop_returns tbl rowIdx (TableCells r) 0 pa st tr Ha) as (st' & ->).
      apply IH.
      destruct (placements tbl (rowsFrom (rowIdx + 1) rows)) as [pb|] eqn:Hb;
        [|reflexivity].
      rewrite (placements_app_Some tbl _ _ pa pb Ha Hb) in H. discriminate.
    + destruct (cellsLoop_panics tbl rowIdx (TableCells r) 0 st tr (Z.le_refl 0) Ha)
        as (i & n & ->).
      do 2 eexists. reflexivity.
  - unfold rowsFrom in H. simpl in H. fold (rowsFrom (rowIdx + 1) rows) in H.
    cbn [rowsLoop]. apply IH. exact H.
Qed.

(** X17: the loop that builds the insert-text requests panics with an index
    out of range exactly when the document table has a non-nil cell at a
    position where the source table has no entry; it leaves the trace
    untouched, so no text is sent. *)
Theorem rowsLoop_panics_iff_a_cell_has_no_source (tbl : table) (tb : Table)
    (tr : Trace) :
  (exists rowIdx cellIdx cell,
      In (rowIdx, cellIdx, cell) (docCells tb) /\ sourceText tbl rowIdx cellIdx = None)
  <-> (exists i n,
          rowsLoop tbl (TableRows tb) 0 ([], 0) tr
          = (Panicked (IndexOutOfRange i n), tr)).
Proof.
  rewrite <- placements_None_iff. split.
  - intros H. now apply rowsLoop_panics.
  - intros (i & n & Hpanic).
    destruct (placements tbl (docCells tb)) as [pl|] eqn:Hpl; [|reflexivity].
    rewrite (rowsLoop_requests tbl tb pl tr Hpl) in Hpanic. discriminate.
Qed.

(** X18: when the loop returns it has built exactly one request per non-nil
    cell of the document table: nil rows and nil cells get none, and source
    entries beyond the document table are left out without an error. *)
Theorem rowsLoop_one_request_per_document_cell (tbl : table) (tb : Table)
    (tr tr' : Trace) (requests : list Request) (totalInserted : Z) :
  rowsLoop tbl (TableRows tb) 0 ([], 0) tr = (Ret (requests, totalInserted), tr') ->
  List.length requests = List.length (docCells tb) /\ tr' = tr.
Proof.
  intros H.
  destruct (placements tbl (docCells tb)) as [pl|] eqn:Hpl.
  - rewrite (rowsLoop_requests tbl tb pl tr Hpl) in H.
    injection H as <- _ <-.
    rewrite textRequestsAfter_length, (placements_length tbl _ pl Hpl). auto.
  - destruct (rowsLoop_panics tbl (TableRows tb) 0 ([], 0) tr Hpl) as (i & n & Hp).
    rewrite Hp in H. discriminate.
Qed.


(** *** A document table of the shape of the source table *)

Lemma placements_cells_sameShape (tbl : table) (rowIdx : Z) (r : row)
    (es : list string) (cells : list (option TableCell)) (pre : list string) :
  0 <= rowIdx ->
  nth_error (contents tbl) (Z.to_nat rowIdx) = Some r ->
  entries r = pre ++ es ->
  Forall2 (fun (_ : string) (c : option TableCell) => nonNil c) es cells ->
  exists pl,
    placements tbl (cellsFrom rowIdx (len pre) cells) = Some pl /\
    List.map fst pl = es.
Proof.
  intros Hr Hrow Hent HF. revert pre Hent.
  induction HF as [|t c es cells Hc _ IH]; intros pre Hent.
  - exists []. auto.
  - destruct c as [cell|]; [|now contradiction Hc].
    destruct (IH (pre ++ [t])) as (pl & Hpl & Hfst).
    { rewrite <- app_assoc. exact Hent. }
    exists ((t, tc_StartIndex cell) :: pl). split; [|simpl; now rewrite Hfst].
    unfold cellsFrom. simpl. fold (cellsFrom rowIdx (len pre + 1) cells).
    replace (len pre + 1) with (len (pre ++ [t]))
      by (unfold len; rewrite length_app; simpl; lia).
    rewrite Hpl.
    assert (sourceText tbl rowIdx (len pre) = Some t) as ->; [|reflexivity].
    unfold sourceText.
    replace (rowIdx <? 0) with false by (symmetry; apply Z.ltb_ge; lia).
    replace (len pre <? 0) with false by (symmetry; apply Z.ltb_ge; unfold len; lia).
    simpl. rewrite Hrow, Hent. unfold len. rewrite Nat2Z.id.
    rewrite nth_error_app2 by lia. now rewrite Nat.sub_diag.
Qed.

Lemma placements_rows_sameShape (tbl : table) (preRows rows : list row)
    (drows : list (option TableRow)) :
  contents tbl = preRows ++ rows ->
  Forall2
    (fun (r : row) (dr : option TableRow) =>
       exists drow,
         dr = Some drow /\
         Forall2 (fun (_ : string) (c : option TableCell) => nonNil c)
           (entries r) (TableCells drow))
    rows drows ->
  exists pl,
    placements tbl (rowsFrom (len preRows) drows) = Some pl /\
    List.map fst pl = List.concat (List.map entries rows).
Proof.
  intros Hc HF. revert preRows Hc.
  induction HF as [|r dr rows drows (drow & -> & Hcells) _ IH]; intros preRows Hc.
  - exists []. auto.
  - destruct (IH (preRows ++ [r])) as (pb & Hpb & Hfb).
    { rewrite <- app_assoc. exact Hc. }
    destruct (placements_cells_sameShape tbl (len preRows) r (entries r)
                (TableCells drow) []) as (pa & Hpa & Hfa).
    + unfold len. lia.
    + rewrite Hc. unfold len. rewrite Nat2Z.id.
      rewrite nth_error_app2 by lia. now rewrite Nat.sub_diag.
    + reflexivity.
    + exact Hcells.
    + exists (pa ++ pb). split.
      * unfold rowsFrom. simpl. fold (rowsFrom (len preRows + 1) drows).
        replace (len preRows + 1) with (len (preRows ++ [r]))
          by (unfold len; rewrite length_app; simpl; lia).
        now apply placements_app_Some.
      * simpl. now rewrite List.map_app, Hfa, Hfb.
Qed.

Lemma textRequestsAfter_texts (earlier : list string) (pl : list (string * Z)) :
  List.map requestText (textRequestsAfter earlier pl)
  = List.map Some (List.map fst pl).
Proof.
  revert earlier. induction pl as [|[text start] pl IH]; intros earlier; simpl.
  - reflexivity.
  - now rewrite IH.
Qed.

(** X19: when the document table has the shape of the source table (a non-nil
    row for every source row, a non-nil cell for every entry), the loop
    returns and its requests carry every source text exactly once, in
    row-major order of the source table. *)
Theorem rowsLoop_fills_a_table_of_the_same_shape (tbl : table) (tb : Table)
    (tr : Trace) :
  sameShape tbl tb ->
  exists requests totalInserted,
    rowsLoop tbl (TableRows tb) 0 ([], 0) tr = (Ret (requests, totalInserted), tr) /\
    List.map requestText requests
    = List.map Some (List.concat (List.map entries (contents tbl))).
Proof.
  intros Hshape.
  destruct (placements_rows_sameShape tbl [] (contents tbl) (TableRows tb) eq_refl Hshape)
    as (pl & Hpl & Hfst).
  exists (textRequestsAfter [] pl), (Int64.wrap (charCount (List.map fst pl))).
  split.
  - now apply rowsLoop_requests.
  - now rewrite textRequestsAfter_texts, Hfst.
Qed.

(** X20: when the insert-table request has succeeded and the document read
    back ends its tables with a table of the shape of the source table,
    the insert operation sends exactly one more batch update; its requests
    carry every source text exactly once, in row-major order, and the
    operation returns what that batch update answers. *)
Theorem insertTable_sends_every_text (docId : string) (srv : Service) (tbl : table)
    (tr : Trace) (row0 : row) (resp : BatchUpdateResponse) (doc : Document)
    (body : Body) (pre post : list (option StructuralElement))
    (elem : StructuralElement) (tb : Table) :
  rectangular tbl ->
  hd_error (contents tbl) = Some row0 ->
  let request := InsertTable (len (contents tbl)) (len (entries row0)) in
  let tr1 := tr ++ [EvBatchUpdate docId [request];
                    EvLog (LogBatchUpdateResponse (Some resp))] in
  let tr2 := tr1 ++ [EvDocsGet docId] in
  docs_BatchUpdate E srv tr docId [request] = Ok resp ->
  docs_Get E srv tr1 docId = Ok doc ->
  doc_Body doc = Some body ->
  Content body = pre ++ Some elem :: post ->
  Forall nonNil pre ->
  se_Table elem = Some tb ->
  Forall notATable post ->
  sameShape tbl tb ->
  exists requests,
    List.map requestText requests
    = List.map Some (List.concat (List.map entries (contents tbl))) /\
    insertTableToDocument E docId srv tbl tr
    = (Ret (error_of (docs_BatchUpdate E srv tr2 docId requests)),
       tr2 ++ [EvBatchUpdate docId requests;
               EvLog (LogBatchUpdateResponse
                        (response_of (docs_BatchUpdate E srv tr2 docId requests)))]).
Proof.
  intros Hrect Hhd request tr1 tr2 Hupdate Hget Hbody Hcontent Hpre Htb Hpost Hshape.
  destruct (placements_rows_sameShape tbl [] (contents tbl) (TableRows tb) eq_refl Hshape)
    as (pl & Hpl & Hfst).
  exists (textRequestsAfter [] pl). split.
  - now rewrite textRequestsAfter_texts, Hfst.
  - rewrite (insertTable_at_last_table E docId srv tbl tr row0 resp doc body
               pre post elem tb Hrect Hhd Hupdate Hget Hbody Hcontent Hpre Htb Hpost).
    fold request. fold tr1. fold tr2.
    unfold bind at 1. rewrite (rowsLoop_requests tbl tb pl tr2 Hpl).
    unfold bind at 1, batchUpdate at 1, call at 1.
    unfold bind at 1, log_Println, emit, call, ret. simpl fst.
    now rewrite <- app_assoc.
Qed.

(** ** Driver *)

Lemma emitsAt_of_emitsOnly {A} (P : Event -> Prop) (m : M A) (tr : Trace) :
  emitsOnly P m -> emitsAt P m tr.
Proof. intros H. exact (H tr). Qed.

Lemma emitsAt_weaken {A} (P Q : Event -> Prop) (m : M A) (tr : Trace) :
  (forall ev, P ev -> Q ev) -> emitsAt P m tr -> emitsAt Q m tr.
Proof.
  intros HPQ (added & Heq & HP). exists added. split; [exact Heq|].
  eapply Forall_impl; eauto.
Qed.

Lemma emitsAt_bind {A B} (P : Event -> Prop) (m : M A) (k : A -> M B) (tr : Trace) :
  emitsAt P m tr ->
  (forall a tr', m tr = (Ret a, tr') -> emitsAt P (k a) tr') ->
  emitsAt P (bind m k) tr.
Proof.
  intros (added & Heq & HP) Hk. unfold emitsAt, bind.
  destruct (m tr) as [[a|d|p] tr1] eqn:Hm; simpl in Heq; subst tr1.
  - destruct (Hk a (tr ++ added) eq_refl) as (added' & Heq' & HP').
    exists (added ++ added'). rewrite Heq', app_assoc. split; [reflexivity|].
    apply Forall_app. auto.
  - exists added. auto.
  - exists added. auto.
Qed.

Lemma getTables_emits :
  emitsOnly (fun ev => beyondThePage ev = false) (getTables E).
Proof.
  unfold getTables, log_Println, emit. emits_only; reflexivity.
Qed.

Lemma getService_emits :
  emitsOnly (fun ev => touchesDocs ev = false /\ ev <> EvHttpGet CONFLUENCE_URL)
    (getService E).
Proof.
  unfold getService, getClient, tokenFromFile, getTokenFromWeb, saveToken,
    fmt_Printf, emit.
  emits_only; (split; [reflexivity|discriminate]).
Qed.

Lemma getDocument_emits (srv : Service) :
  emitsOnly (fun ev => mutatesDocument ev = false) (getDocument E srv).
Proof.
  unfold getDocument. emits_only; reflexivity.
Qed.

Lemma insertTables_emits (docId : string) (srv : Service) (tables : list table) :
  emitsOnly (driverEffect docId) (insertTables E docId srv tables).
Proof.
  induction tables as [|tbl rest IH]; simpl.
  - apply emitsOnly_ret.
  - apply emitsOnly_bind.
    + apply (emitsOnly_weaken (writerEffect docId)); [now left|].
      apply insertTableToDocument_emits.
    + intros [e|].
      * apply emitsOnly_bind; [|intros _; exact IH].
        apply emitsOnly_call. right. eauto.
      * apply emitsOnly_bind; [apply emitsOnly_ret|intros _; exact IH].
Qed.

(** [main] after the document is located: clear, then the insertions. *)
Lemma driver_emits (docId : string) (srv : Service) (tables : list table) :
  emitsOnly (driverEffect docId)
    (log_Println (LogDocumentId docId) ;;;
     err <- clearDocument E docId srv ;;
     match err with
     | Some e => fmt_Printf (PrintError e)
     | None => ret tt
     end ;;;
     insertTables E docId srv tables)%go.
Proof.
  apply emitsOnly_bind.
  - apply emitsOnly_call. left. right. right. eauto.
  - intros _. apply emitsOnly_bind.
    + apply (emitsOnly_weaken (writerEffect docId)); [now left|].
      apply clearDocument_emits.
    + intros [e|].
      * apply emitsOnly_bind; [|intros _; apply insertTables_emits].
        apply emitsOnly_call. right. eauto.
      * apply emitsOnly_bind; [apply emitsOnly_ret|intros _; apply insertTables_emits].
Qed.

Lemma getTables_scrapes :
  emitsOnly scraperEffect (getTables E).
Proof.
  unfold getTables, log_Println, emit.
  emits_only; unfold scraperEffect; eauto 6.
Qed.

(** X21: when the fetch of the page fails, [main] ends the process with
    the diagnostic of the fetch, and every effect of the run is one of the
    scraper's (the fetch of the page URL, the parse and the close of its
    body, a table log line) or the line of that diagnostic: nothing is
    printed, no file is read, no code is asked for and the Docs API is not
    reached. *)
Theorem main_stops_at_a_failed_fetch (tr tr1 : Trace) (e : error) :
  getTables E tr = (Ret (Err e), tr1) ->
  fst (main E tr) = Exit (FailedToGetTables e) /\
  emitsAt
    (fun ev => scraperEffect ev \/ ev = EvLog (LogFatal (FailedToGetTables e)))
    (main E) tr.
Proof.
  intros Hfetch. split.
  - unfold main, bind at 1. now rewrite Hfetch.
  - unfold main. apply emitsAt_bind.
    + eapply emitsAt_weaken; [|apply emitsAt_of_emitsOnly, getTables_scrapes].
      intros ev Hev. now left.
    + intros r tr' Hr. rewrite Hfetch in Hr. injection Hr as <- <-.
      apply emitsAt_of_emitsOnly, emitsOnly_log_Fatalf. now right.
Qed.

Lemma page_effect_does_not_mutate (ev : Event) :
  beyondThePage ev = false -> mutatesDocument ev = false.
Proof. destruct ev; simpl; congruence. Qed.

Lemma non_docs_effect_does_not_mutate (ev : Event) :
  touchesDocs ev = false -> mutatesDocument ev = false.
Proof. destruct ev; simpl; congruence. Qed.

(** X22: in a run of [main] whose fetch, authentication and locate steps
    each return a value, no batch update is sent before the document is
    located, and from then on every effect is a read or a batch update of
    the document that this run's [getDocument] returned, a log line or a
    printed error: never a batch update of another document.  In a run in
    which one of the three steps does not return a value, [main] sends no
    batch update at all. *)
Theorem main_mutates_only_the_located_document (tr : Trace) :
  (forall tables srv doc tr3,
      located E tr tables srv doc tr3 ->
      exists before after,
        tr3 = tr ++ before /\
        snd (main E tr) = tr3 ++ after /\
        Forall (fun ev => mutatesDocument ev = false) before /\
        Forall (driverEffect (DocumentId doc)) after) /\
  ((forall tables srv doc tr3, ~ located E tr tables srv doc tr3) ->
   emitsAt (fun ev => mutatesDocument ev = false) (main E) tr).
Proof.
  split.
  - intros tables srv doc tr3 (tr1 & tr2 & Ht & Hs & Hd).
    destruct (getTables_emits tr) as (a1 & E1 & P1). rewrite Ht in E1. simpl in E1.
    destruct (getService_emits (tr1 ++ [EvLog (LogTablesCount (len tables))]))
      as (a2 & E2 & P2).
    rewrite Hs in E2. simpl in E2.
    destruct (getDocument_emits srv tr2) as (a3 & E3 & P3). rewrite Hd in E3. simpl in E3.
    destruct (driver_emits (DocumentId doc) srv tables tr3) as (after & E4 & P4).
    exists (a1 ++ [EvLog (LogTablesCount (len tables))] ++ a2 ++ a3), after.
    split; [|split; [|split]].
    + subst tr3 tr2 tr1. now rewrite <- !app_assoc.
    + rewrite (main_located E tr tr1 tr2 tr3 tables srv doc Ht Hs Hd). exact E4.
    + apply Forall_app. split; [|apply Forall_app; split; [|apply Forall_app; split]].
      * eapply Forall_impl; [|exact P1]. apply page_effect_does_not_mutate.
      * constructor; [reflexivity|constructor].
      * eapply Forall_impl; [|exact P2]. intros ev [H _].
        now apply non_docs_effect_does_not_mutate.
      * exact P3.
    + exact P4.
  - intros Hno. unfold main. apply emitsAt_bind.
    + eapply emitsAt_weaken; [|apply emitsAt_of_emitsOnly, getTables_emits].
      apply page_effect_does_not_mutate.
    + intros [tables|e] trA HA.
      * apply emitsAt_bind.
        -- apply emitsAt_of_emitsOnly, emitsOnly_call. reflexivity.
        -- intros [] trB HB. injection HB as <-. apply emitsAt_bind.
           ++ eapply emitsAt_weaken; [|apply emitsAt_of_emitsOnly, getService_emits].
              intros ev [H _]. now apply non_docs_effect_does_not_mutate.
           ++ intros [srv|e] trC HC.
              ** apply emitsAt_bind.
                 --- apply emitsAt_of_emitsOnly, getDocument_emits.
                 --- intros [doc|e] trD HD.
                     +++ exfalso. apply (Hno tables srv doc trD).
                         exists trA, trC. auto.
                     +++ apply emitsAt_of_emitsOnly, emitsOnly_log_Fatalf. reflexivity.
              ** apply emitsAt_of_emitsOnly, emitsOnly_log_Fatalf. reflexivity.
      * apply emitsAt_of_emitsOnly, emitsOnly_log_Fatalf. reflexivity.
Qed.

(** The pairs built by [placements] are the cells they were built from:
    the text is the source entry at the cell's position, the offset is the
    cell's start. *)
Lemma placements_cells (tbl : table) (cells : list (Z * Z * TableCell))
    (pl : list (string * Z)) :
  placements tbl cells = Some pl ->
  Forall2
    (fun (c : Z * Z * TableCell) (p : string * Z) =>
       sourceText tbl (fst (fst c)) (snd (fst c)) = Some (fst p) /\
       snd p = tc_StartIndex (snd c))
    cells pl.
Proof.
  revert pl. induction cells as [|[[r c] cell] cells IH]; intros pl H; simpl in H.
  - injection H as <-. constructor.
  - destruct (sourceText tbl r c) as [text|] eqn:Htext; [|discriminate].
    destruct (placements tbl cells) as [pl'|]; [|discriminate].
    injection H as <-. constructor; [simpl; auto|]. now apply IH.
Qed.

(** C8: after the insert-table request has succeeded, the operation
    fetches the document again.  If the body read back contains no table
    element, the operation returns an error after that read.  Otherwise it
    works from the table of the last table element of the body, whatever
    precedes it (other tables included): when every non-nil cell of that
    table has a source text, the single batch sent is built from the pairs
    of source text and start offset of that table's cells, in row-major
    order, each text at its cell's start offset plus one plus the character
    count of the texts before it; when some cell of that table has no source
    text, the operation panics after the read and sends nothing. *)
Theorem insertTable_locates_last_table (docId : string) (srv : Service) (tbl : table)
    (tr : Trace) (row0 : row) (resp : BatchUpdateResponse) (doc : Document)
    (body : Body) :
  rectangular tbl ->
  hd_error (contents tbl) = Some row0 ->
  let request := InsertTable (len (contents tbl)) (len (entries row0)) in
  let tr1 := tr ++ [EvBatchUpdate docId [request];
                    EvLog (LogBatchUpdateResponse (Some resp))] in
  let tr2 := tr1 ++ [EvDocsGet docId] in
  docs_BatchUpdate E srv tr docId [request] = Ok resp ->
  docs_Get E srv tr1 docId = Ok doc ->
  doc_Body doc = Some body ->
  (Forall notATable (Content body) ->
   insertTableToDocument E docId srv tbl tr = (Ret (Some LastTableNotFound), tr2)) /\
  (forall pre post elem tb,
      Content body = pre ++ Some elem :: post ->
      Forall nonNil pre ->
      se_Table elem = Some tb ->
      Forall notATable post ->
      (forall pl,
          placements tbl (docCells tb) = Some pl ->
          let requests := textRequestsAfter [] pl in
          let r := docs_BatchUpdate E srv tr2 docId requests in
          insertTableToDocument E docId srv tbl tr
          = (Ret (error_of r),
             tr2 ++ [EvBatchUpdate docId requests;
                     EvLog (LogBatchUpdateResponse (response_of r))]) /\
          Forall2
            (fun (c : Z * Z * TableCell) (p : string * Z) =>
               sourceText tbl (fst (fst c)) (snd (fst c)) = Some (fst p) /\
               snd p = tc_StartIndex (snd c))
            (docCells tb) pl /\
          (forall i text start,
              nth_error pl i = Some (text, start) ->
              nth_error requests i
              = Some (InsertText text
                        (Int64.wrap
                           (start + 1 + charCount (List.map fst (firstn i pl))))))) /\
      (placements tbl (docCells tb) = None ->
       exists i n,
         insertTableToDocument E docId srv tbl tr
         = (Panicked (IndexOutOfRange i n), tr2))).
Proof.
  intros Hrect Hhd request tr1 tr2 Hupdate Hget Hbody. split.
  - intros Hnone.
    rewrite (insertTable_refetched E docId srv tbl tr row0 resp doc body
               Hrect Hhd Hupdate Hget Hbody).
    unfold bind at 1.
    rewrite (scanTables_no_table (Content body) 0 (-1) _ Hnone).
    reflexivity.
  - intros pre post elem tb Hcontent Hpre Htb Hpost.
    rewrite (insertTable_at_last_table E docId srv tbl tr row0 resp doc body
               pre post elem tb Hrect Hhd Hupdate Hget Hbody Hcontent Hpre Htb Hpost).
    fold request. fold tr1. fold tr2. split.
    + intros pl Hpl requests r. split; [|split].
      * unfold bind at 1. rewrite (rowsLoop_requests tbl tb pl tr2 Hpl).
        unfold bind at 1, batchUpdate at 1, call at 1.
        unfold bind at 1, log_Println, emit, call, ret. simpl fst.
        fold requests. fold r. now rewrite <- app_assoc.
      * now apply placements_cells.
      * intros i text start Hnth. subst requests.
        now rewrite (textRequestsAfter_nth [] pl i text start Hnth).
    + intros Hpl.
      destruct (rowsLoop_panics tbl (TableRows tb) 0 ([], 0) tr2 Hpl) as (i & n & Hp).
      exists i, n. unfold bind at 1. now rewrite Hp.
Qed.

End Coverage.

(** * Further runs in the simulated worlds *)


(** A later run: the cached token is used. *)
Lemma getClient_uses_cached_token_witness :
  getClient (AuthDemo.env AuthDemo.laterRun) tt []
  = (Ret "cached-token",
     [EvOpen TOKEN_PATH; EvJsonDecode TOKEN_PATH; EvCloseFile TOKEN_PATH]).
Proof.
  apply (getClient_uses_cached_token (AuthDemo.env AuthDemo.laterRun) tt []
           "cached-token"); reflexivity.
Defined.

(** A token file that does not decode: the interactive flow runs and the
    file is written again. *)
Lemma getClient_obtains_and_saves_a_new_token_witness :
  getClient (AuthDemo.env AuthDemo.corruptToken) tt []
  = (Ret "new-token",
     [EvOpen TOKEN_PATH; EvJsonDecode TOKEN_PATH; EvCloseFile TOKEN_PATH;
      EvPrint (PrintAuthPrompt "https://accounts.example/auth");
      EvScan; EvExchange "code";
      EvPrint (PrintSavingCredential TOKEN_PATH);
      EvOpenFile TOKEN_PATH; EvJsonEncode TOKEN_PATH; EvCloseFile TOKEN_PATH]).
Proof.
  apply (getClient_obtains_and_saves_a_new_token (AuthDemo.env AuthDemo.corruptToken)
           tt []
           [EvOpen TOKEN_PATH; EvJsonDecode TOKEN_PATH; EvCloseFile TOKEN_PATH]
           (ExternalError "unexpected end of JSON input") "code" "new-token");
    reflexivity.
Defined.

(** The authorization server refuses the code: the process ends and the
    token file is not written. *)
Lemma getClient_exits_when_the_flow_fails_witness :
  getClient (AuthDemo.env AuthDemo.refusedCode) tt []
  = (Exit (UnableToRetrieveTokenFromWeb
             (ExternalError "oauth2: cannot fetch token: 400 Bad Request")),
     [EvOpen TOKEN_PATH; EvCloseFile TOKEN_PATH;
      EvPrint (PrintAuthPrompt "https://accounts.example/auth");
      EvScan; EvExchange "code";
      EvLog (LogFatal
               (UnableToRetrieveTokenFromWeb
                  (ExternalError "oauth2: cannot fetch token: 400 Bad Request")))]).
Proof.
  apply (proj1 (proj2 (getClient_exits_when_the_flow_fails
                         (AuthDemo.env AuthDemo.refusedCode) tt []
                         [EvOpen TOKEN_PATH; EvCloseFile TOKEN_PATH]
                         (ExternalError "open token.json: no such file or directory")
                         eq_refl))
           "code" (ExternalError "oauth2: cannot fetch token: 400 Bad Request"));
    reflexivity.
Defined.

(** No credentials file: the error is returned and the token file is left
    alone. *)
Lemma getService_checks_credentials_first_witness :
  getService (AuthDemo.env AuthDemo.noSecret) []
  = (Ret (Err (UnableToReadSecret
                 (ExternalError "open credentials.json: no such file or directory"))),
     [EvReadFile CREDENTIALS_PATH]).
Proof.
  apply (proj1 (getService_checks_credentials_first (AuthDemo.env AuthDemo.noSecret) [])).
  reflexivity.
Defined.

(** The saved document is gone: the error of the fetch is returned, no
    document is created. *)
Lemma getDocument_does_not_write_without_a_new_document_witness :
  getDocument (AuthDemo.env AuthDemo.docGone) tt []
  = (Ret (Err (ExternalError "googleapi: Error 404")),
     [EvReadFile DOCUMENT_ID_PATH; EvDocsGet "doc-1"]).
Proof.
  apply (proj1 (getDocument_does_not_write_without_a_new_document
                  (AuthDemo.env AuthDemo.docGone) tt []) "doc-1").
  reflexivity.
Defined.

(** The document cannot be fetched: the clear operation sends nothing. *)
Lemma clearDocument_sends_nothing_without_a_body_witness :
  clearDocument (AuthDemo.env AuthDemo.docGone) "doc-1" tt []
  = (Ret (Some (ExternalError "googleapi: Error 404")), [EvDocsGet "doc-1"]).
Proof.
  apply (proj1 (clearDocument_sends_nothing_without_a_body
                  (AuthDemo.env AuthDemo.docGone) "doc-1" tt [])).
  reflexivity.
Defined.

(** The rows ["ab","c"] and ["d"]: row #2 has 1 cell where 2 are expected. *)
Lemma insertTable_reports_the_first_offending_row_witness :
  insertTableToDocument (Demo.env Demo.normal) "doc-1" tt Demo.tableAbCD []
  = (Ret (Some (InvalidTable 2 1 2)), []).
Proof.
  apply (insertTable_reports_the_first_offending_row (Demo.env Demo.normal) "doc-1" tt
           Demo.tableAbCD [] {| entries := ["ab"; "c"] |} {| entries := ["d"] |} [] []).
  - reflexivity.
  - constructor.
  - simpl. discriminate.
Defined.

(** A table of one row without cells passes validation; the service
    refuses a table without columns and the operation stops there. *)
Lemma insertTable_stops_at_the_first_failed_call_witness :
  insertTableToDocument (Demo.env Demo.normal) "doc-1" tt
    {| contents := [ {| entries := [] |} ] |} []
  = (Ret (Some (ExternalError "400 Bad Request")),
     [EvBatchUpdate "doc-1" [InsertTable 1 0]; EvLog (LogBatchUpdateResponse None)]).
Proof.
  apply (proj1 (insertTable_stops_at_the_first_failed_call (Demo.env Demo.normal)
                  "doc-1" tt {| contents := [ {| entries := [] |} ] |} []
                  {| entries := [] |} ltac:(repeat constructor) eq_refl)).
  reflexivity.
Defined.

(** Three non-nil document cells, three requests. *)
Lemma rowsLoop_one_request_per_document_cell_witness :
  List.length [InsertText "ab" 11; InsertText "c" 15; InsertText "d" 19]
  = List.length (docCells (Demo.docTableAbCD 10 12 15)) /\
  @nil Event = [].
Proof.
  apply (rowsLoop_one_request_per_document_cell Demo.tableAbCD
           (Demo.docTableAbCD 10 12 15) [] []
           [InsertText "ab" 11; InsertText "c" 15; InsertText "d" 19] 4).
  reflexivity.
Defined.

(** The 2 x 2 table "A","B","C","D" against a fresh 2 x 2 document table. *)
Lemma rowsLoop_fills_a_table_of_the_same_shape_witness :
  exists requests totalInserted,
    rowsLoop Demo.table2x2 (TableRows (Demo.emptyTable 2 2 2)) 0 ([], 0) []
    = (Ret (requests, totalInserted), []) /\
    List.map requestText requests = [Some "A"; Some "B"; Some "C"; Some "D"].
Proof.
  apply (rowsLoop_fills_a_table_of_the_same_shape Demo.table2x2 (Demo.emptyTable 2 2 2) []).
  repeat (constructor || eexists || discriminate).
Defined.

(** The same table through the whole insert operation. *)
Lemma insertTable_sends_every_text_witness :
  exists requests,
    List.map requestText requests = [Some "A"; Some "B"; Some "C"; Some "D"] /\
    insertTableToDocument (Demo.env Demo.normal) "doc-1" tt Demo.table2x2 []
    = (Ret (error_of (Demo.service requests)),
       [EvBatchUpdate "doc-1" [InsertTable 2 2];
        EvLog (LogBatchUpdateResponse (Some {| resp_DocumentId := "doc-1" |}));
        EvDocsGet "doc-1";
        EvBatchUpdate "doc-1" requests;
        EvLog (LogBatchUpdateResponse (response_of (Demo.service requests)))]).
Proof.
  apply (insertTable_sends_every_text (Demo.env Demo.normal) "doc-1" tt
           Demo.table2x2 [] {| entries := ["A"; "B"] |}
           {| resp_DocumentId := "doc-1" |}
           (Demo.documentAfter "doc-1" [EvBatchUpdate "doc-1" [InsertTable 2 2]])
           {| Content :=
                [Some Demo.sectionBreak;
                 Some (Demo.paragraph 1 2);
                 Some {| se_StartIndex := 2;
                         se_EndIndex := 14;
                         se_Table := Some (Demo.emptyTable 2 2 2) |};
                 Some (Demo.paragraph 14 15)] |}
           [Some Demo.sectionBreak; Some (Demo.paragraph 1 2)]
           [Some (Demo.paragraph 14 15)]
           {| se_StartIndex := 2;
              se_EndIndex := 14;
              se_Table := Some (Demo.emptyTable 2 2 2) |}
           (Demo.emptyTable 2 2 2)
           ltac:(repeat constructor) eq_refl eq_refl eq_refl eq_refl eq_refl
           ltac:(repeat constructor; discriminate) eq_refl
           ltac:(repeat constructor; eexists; split; reflexivity)
           ltac:(repeat (constructor || eexists || discriminate))).
Defined.

(** The page answers 201: [main] ends after the fetch. *)
Lemma main_stops_at_a_failed_fetch_witness :
  fst (main (Demo.env Demo.created201) [])
  = Exit (FailedToGetTables (NonOkayStatus 201 "201 Created")) /\
  emitsAt
    (fun ev =>
       scraperEffect ev \/
       ev = EvLog (LogFatal (FailedToGetTables (NonOkayStatus 201 "201 Created"))))
    (main (Demo.env Demo.created201)) [].
Proof.
  apply (main_stops_at_a_failed_fetch (Demo.env Demo.created201) []
           [EvHttpGet CONFLUENCE_URL; EvCloseBody]
           (NonOkayStatus 201 "201 Created")).
  reflexivity.
Defined.

(** C8 at work.  A document read back without any table gives the error.
    A document that holds two tables, one starting at 2 and the last one at
    15, gets the texts at the cells of the last one: its cells start at 17,
    19, 22 and 24. *)
Lemma insertTable_locates_last_table_witness :
  insertTableToDocument (Demo.env Demo.tableVanishes) "doc-1" tt Demo.table2x2 []
  = (Ret (Some LastTableNotFound),
     [EvBatchUpdate "doc-1" [InsertTable 2 2];
      EvLog (LogBatchUpdateResponse (Some {| resp_DocumentId := "doc-1" |}));
      EvDocsGet "doc-1"]) /\
  insertTableToDocument (Demo.env TwoTables.scenario) "doc-1" tt Demo.table2x2 []
  = (Ret None,
     [EvBatchUpdate "doc-1" [InsertTable 2 2];
      EvLog (LogBatchUpdateResponse (Some {| resp_DocumentId := "doc-1" |}));
      EvDocsGet "doc-1";
      EvBatchUpdate "doc-1"
        [InsertText "A" 18; InsertText "B" 21; InsertText "C" 25; InsertText "D" 28];
      EvLog (LogBatchUpdateResponse (Some {| resp_DocumentId := "doc-1" |}))]).
Proof.
  split.
  - apply (proj1 (insertTable_locates_last_table (Demo.env Demo.tableVanishes) "doc-1" tt
                    Demo.table2x2 [] {| entries := ["A"; "B"] |}
                    {| resp_DocumentId := "doc-1" |}
                    (Demo.documentAfter "doc-1" [])
                    {| Content := [Some Demo.sectionBreak; Some (Demo.paragraph 1 2)] |}
                    ltac:(repeat constructor) eq_refl eq_refl eq_refl eq_refl)).
    repeat constructor; eexists; split; reflexivity.
  - apply (proj1 (proj1 (proj2 (insertTable_locates_last_table
                    (Demo.env TwoTables.scenario) "doc-1" tt
                    Demo.table2x2 [] {| entries := ["A"; "B"] |}
                    {| resp_DocumentId := "doc-1" |}
                    {| DocumentId := "doc-1"; doc_Body := Some TwoTables.body |}
                    TwoTables.body
                    ltac:(repeat constructor) eq_refl eq_refl eq_refl eq_refl)
                  [Some Demo.sectionBreak;
                   Some (Demo.paragraph 1 2);
                   Some {| se_StartIndex := 2;
                           se_EndIndex := 14;
                           se_Table := Some (Demo.emptyTable 2 2 2) |};
                   Some (Demo.paragraph 14 15)]
                  [Some (Demo.paragraph 27 28)]
                  {| se_StartIndex := 15;
                     se_EndIndex := 27;
                     se_Table := Some (Demo.emptyTable 15 2 2) |}
                  (Demo.emptyTable 15 2 2)
                  eq_refl
                  ltac:(repeat constructor; discriminate) eq_refl
                  ltac:(repeat constructor; eexists; split; reflexivity))
                  [("A", 17); ("B", 19); ("C", 22); ("D", 24)] eq_refl)).
Defined.

(** X7 at work: the new token cannot be saved, and the process ends. *)
Lemma getService_outcomes_witness :
  fst (getService (AuthDemo.env AuthDemo.unwritableToken) [])
  = Exit (UnableToCacheOAuthToken
            (ExternalError "open token.json: permission denied")).
Proof.
  apply (proj2 (proj2 (getService_outcomes (AuthDemo.env AuthDemo.unwritableToken) []))).
  exists "{}", tt, (ExternalError "open token.json: no such file or directory"),
    [EvReadFile CREDENTIALS_PATH; EvOpen TOKEN_PATH; EvCloseFile TOKEN_PATH].
  split; [reflexivity|]. split; [reflexivity|]. split; [reflexivity|].
  right. right.
  exists "code", "new-token", (ExternalError "open token.json: permission denied").
  repeat split; reflexivity.
Defined.

(** X22 at work: in the run on the sample page the document "doc-1" is
    located after thirteen effects, none of them a batch update, and what
    follows only concerns "doc-1". *)
Lemma main_mutates_only_the_located_document_witness :
  exists before after,
    List.length before = 13%nat /\
    snd (main (Demo.env Demo.normal) []) = before ++ after /\
    Forall (fun ev => mutatesDocument ev = false) before /\
    Forall (driverEffect "doc-1") after.
Proof.
  destruct (proj1 (main_mutates_only_the_located_document (Demo.env Demo.normal) [])
              (List.map (scrapeTable (Demo.env Demo.normal))
                 (List.map Demo.TableNode Demo.samplePage))
              tt (Demo.documentAfter "doc-1" [])
              (snd (getDocument (Demo.env Demo.normal) tt
                      (snd (getService (Demo.env Demo.normal)
                              (snd (getTables (Demo.env Demo.normal) [])
                                 ++ [EvLog (LogTablesCount 3)]))))))
    as (before & after & Hbefore & Hrun & Hquiet & Hdriver).
  - eexists. eexists. split; [lazy; reflexivity|]. split; lazy; reflexivity.
  - exists before, after. simpl in Hbefore. subst before.
    split; [reflexivity|]. split; [exact Hrun|]. split; [exact Hquiet|exact Hdriver].
Defined.
